(** * MetaVoteStrategyV2: the rolling retrain / reweight meta-strategy

    Shallow embedding of [build_meta_strategy] and of the class
    [MetaVoteStrategyV2] it returns (notebook
    [gpu_crypto_backtest_template.ipynb], cell "Meta-strategy definition"),
    together with [fit_models_on_gpu].

    Conventions of the embedding.

    - Numbers.  A NumPy/Python float is a value of [fl]: an exact rational
      ([Fin q]), one of the two infinities, or [NaN].  Rounding, overflow and
      the sign of zero are not modelled; the conversions to [float32] are
      therefore the identity.  The last two statements of
      [_update_weights] are given on binary64 numbers as well ([Binary64]).
    - Dictionaries.  A Python [dict] is an association list in insertion
      order; the keys of a [dict] are pairwise distinct.
    - Exceptions.  A method that can raise returns a [result].
    - The data frame [self.data.df] is the list of the rows revealed so far;
      a row maps a column name to its value.  The [KeyError] of a column
      that the frame does not carry is modelled on [Frame], which adds the
      column labels to the rows.
    - The four regressors are opaque: their [fit] is a field of
      [Estimators], and a fitted model is its [predict] function. *)

From Stdlib Require Import ZArith QArith Qabs String Bool Lia Lqa List.
From Stdlib Require Floats.PrimFloat.
Import ListNotations.
Open Scope Z_scope.

(** ** Exceptions *)

Inductive Exn : Type :=
| KeyError (k : string)
| IndexError
| ValueError
| ZeroDivisionError.

Inductive result (A : Type) : Type :=
| Ok (a : A)
| Raise (e : Exn).
Arguments Ok {A} a.
Arguments Raise {A} e.

Definition bind {A B : Type} (r : result A) (f : A -> result B) : result B :=
  match r with
  | Ok a => f a
  | Raise e => Raise e
  end.

Notation "x <- c ;; k" := (bind c (fun x => k))
  (at level 61, c at next level, right associativity).

Fixpoint mapM {A B : Type} (f : A -> result B) (l : list A) : result (list B) :=
  match l with
  | [] => Ok []
  | a :: l' => b <- f a ;; bs <- mapM f l' ;; Ok (b :: bs)
  end.

(** ** Floating-point values *)

Inductive fl : Type :=
| Fin (q : Q)
| PInf
| NInf
| NaN.

Definition Qzero (q : Q) : bool := Qeq_bool q 0.
Definition Qpos (q : Q) : bool := negb (Qle_bool q 0).

Definition isnan (x : fl) : bool :=
  match x with NaN => true | _ => false end.

Definition is_finite (x : fl) : bool :=
  match x with Fin _ => true | _ => false end.

Definition fneg (x : fl) : fl :=
  match x with
  | Fin q => Fin (- q)
  | PInf => NInf
  | NInf => PInf
  | NaN => NaN
  end.

Definition fabs (x : fl) : fl :=
  match x with
  | Fin q => Fin (Qabs q)
  | PInf | NInf => PInf
  | NaN => NaN
  end.

Definition fadd (x y : fl) : fl :=
  match x, y with
  | NaN, _ | _, NaN => NaN
  | Fin a, Fin b => Fin (a + b)
  | PInf, NInf | NInf, PInf => NaN
  | PInf, _ | _, PInf => PInf
  | NInf, _ | _, NInf => NInf
  end.

Definition fsub (x y : fl) : fl := fadd x (fneg y).

(** An infinity scaled by a finite factor: the sign of the factor decides,
    and a zero factor gives [NaN]. *)
Definition inf_times (pos : bool) (q : Q) : fl :=
  if Qzero q then NaN
  else if Bool.eqb pos (Qpos q) then PInf else NInf.

Definition fmul (x y : fl) : fl :=
  match x, y with
  | NaN, _ | _, NaN => NaN
  | Fin a, Fin b => Fin (a * b)
  | PInf, Fin b => inf_times true b
  | NInf, Fin b => inf_times false b
  | Fin a, PInf => inf_times true a
  | Fin a, NInf => inf_times false a
  | PInf, PInf | NInf, NInf => PInf
  | PInf, NInf | NInf, PInf => NInf
  end.

(** NumPy division: a finite value over zero is an infinity ([NaN] for
    [0/0]), no exception is raised. *)
Definition fdiv (x y : fl) : fl :=
  match x, y with
  | NaN, _ | _, NaN => NaN
  | Fin a, Fin b =>
      if Qzero b then
        (if Qzero a then NaN else if Qpos a then PInf else NInf)
      else Fin (a / b)
  | Fin _, _ => Fin 0
  | PInf, Fin b => if Qle_bool 0 b then PInf else NInf
  | NInf, Fin b => if Qle_bool 0 b then NInf else PInf
  | _, _ => NaN
  end.

(** [x < y]; every comparison with [NaN] is [False]. *)
Definition flt (x y : fl) : bool :=
  match x, y with
  | NaN, _ | _, NaN => false
  | Fin a, Fin b => negb (Qle_bool b a)
  | Fin _, PInf => true
  | Fin _, NInf => false
  | PInf, _ => false
  | NInf, NInf => false
  | NInf, _ => true
  end.

Definition fgt (x y : fl) : bool := flt y x.

Definition of_int (z : Z) : fl := Fin (inject_Z z).
Definition of_len {A : Type} (l : list A) : fl := of_int (Z.of_nat (length l)).

(** Python's [sum] and [np.sum]: a left fold starting from [0]. *)
Definition fsum (l : list fl) : fl := fold_left fadd l (Fin 0).

(** [np.mean]. *)
Definition np_mean (l : list fl) : fl := fdiv (fsum l) (of_len l).

(** ** Sequences: negative slices and the bounded deque *)

(** [l[-n:]]: the last [n] elements, all of [l] when it is shorter. *)
Definition lastn {A : Type} (n : nat) (l : list A) : list A :=
  skipn (length l - n) l.

(** [deque.append] on a deque built with [maxlen]: the new element goes to
    the right end and the left end is dropped while the deque is too long. *)
Definition deque_append {A : Type} (maxlen : nat) (d : list A) (x : A) : list A :=
  lastn maxlen (d ++ [x]).

(** Elementwise subtraction of two one-dimensional arrays with NumPy
    broadcasting: equal lengths, or one of the two of length one. *)
Fixpoint zip_sub (a b : list fl) : list fl :=
  match a, b with
  | x :: a', y :: b' => fsub x y :: zip_sub a' b'
  | _, _ => []
  end.

Definition np_sub (a b : list fl) : result (list fl) :=
  if Nat.eqb (length a) (length b) then Ok (zip_sub a b)
  else match b with
       | [y] => Ok (map (fun x => fsub x y) a)
       | _ => match a with
              | [x] => Ok (map (fun y => fsub x y) b)
              | _ => Raise ValueError
              end
       end.

(** ** Data frame *)

Definition Row : Type := string -> fl.
Definition DataFrame : Type := list Row.

(** [df[col]]. *)
Definition column (df : DataFrame) (col : string) : list fl :=
  map (fun r => r col) df.

(** [Series.pct_change()]: [s / s.shift(1) - 1]; the first entry has no
    predecessor and is [NaN].  Missing values are not forward-filled. *)
Fixpoint pct_from (prev : fl) (s : list fl) : list fl :=
  match s with
  | [] => []
  | x :: s' => fsub (fdiv x prev) (Fin 1) :: pct_from x s'
  end.

Definition pct_change (s : list fl) : list fl := pct_from NaN s.

(** [s.iloc[-1]] and [s.iloc[-2]]. *)
Definition iloc_m1 (s : list fl) : result fl :=
  match rev s with
  | x :: _ => Ok x
  | [] => Raise IndexError
  end.

Definition iloc_m2 (s : list fl) : result fl :=
  match rev s with
  | _ :: x :: _ => Ok x
  | _ => Raise IndexError
  end.

(** ** Models *)

Record Model : Type := { predict : list fl -> fl }.

(** [m.predict(X)] on a batch: one prediction per row. *)
Definition predict_batch (m : Model) (X : list (list fl)) : list fl :=
  map (predict m) X.

Record Estimators : Type := {
  XGBRegressor_fit : list (list fl) -> list fl -> Model;
  LGBMRegressor_fit : list (list fl) -> list fl -> Model;
  CatBoostRegressor_fit : list (list fl) -> list fl -> Model;
  RandomForestRegressor_fit : list (list fl) -> list fl -> Model
}.

Definition fit_models_on_gpu (E : Estimators) (X : list (list fl)) (y : list fl)
  : list (string * Model) :=
  [ ("xgb"%string, XGBRegressor_fit E X y);
    ("lgb"%string, LGBMRegressor_fit E X y);
    ("cat"%string, CatBoostRegressor_fit E X y);
    ("rf"%string, RandomForestRegressor_fit E X y) ].

(** [d[k]]. *)
Fixpoint getitem {V : Type} (d : list (string * V)) (k : string) : result V :=
  match d with
  | [] => Raise (KeyError k)
  | (k', v) :: d' => if String.eqb k' k then Ok v else getitem d' k
  end.

(** ** Position held at the broker

    The order-execution engine is an external collaborator; the strategy
    only closes, buys, sells and asks for the side of the open position.
    Orders are taken as filled when they are placed. *)

Inductive PositionState : Type := Flat | Long | Short.

Definition is_long (p : PositionState) : bool :=
  match p with Long => true | _ => false end.
Definition is_short (p : PositionState) : bool :=
  match p with Short => true | _ => false end.
Definition position_close (p : PositionState) : PositionState := Flat.
Definition buy (p : PositionState) : PositionState := Long.
Definition sell (p : PositionState) : PositionState := Short.

(** ** The strategy *)

(** Module-level constants of the notebook. *)
Definition RETRAIN_EVERY : Z := 360.
Definition REWEIGHT_TRADES : Z := 60.
Definition WINDOW_LEN : nat := Z.to_nat 10000.

(** The arguments of [build_meta_strategy] that the class closes over.
    [window_len] is the [maxlen] of the two deques, which Python requires
    to be non-negative. *)
Record Config : Type := {
  base_models : list (string * Model);
  feat_cols : list string;
  trade_threshold : fl;
  retrain_every : Z;
  reweight_every_trades : Z;
  window_len : nat
}.

(** The attributes of a [MetaVoteStrategyV2] instance, and the position the
    broker holds for it. *)
Record Strategy : Type := {
  models : list (string * Model);
  weights : list (string * fl);
  retrain_c : Z;
  trade_c : Z;
  X_buf : list (list fl);
  y_buf : list fl;
  position : PositionState
}.

Definition set_models (st : Strategy) (ms : list (string * Model)) : Strategy :=
  {| models := ms; weights := weights st; retrain_c := retrain_c st;
     trade_c := trade_c st; X_buf := X_buf st; y_buf := y_buf st;
     position := position st |}.

Definition set_weights (st : Strategy) (ws : list (string * fl)) : Strategy :=
  {| models := models st; weights := ws; retrain_c := retrain_c st;
     trade_c := trade_c st; X_buf := X_buf st; y_buf := y_buf st;
     position := position st |}.

Definition set_retrain_c (st : Strategy) (c : Z) : Strategy :=
  {| models := models st; weights := weights st; retrain_c := c;
     trade_c := trade_c st; X_buf := X_buf st; y_buf := y_buf st;
     position := position st |}.

Definition set_trade_c (st : Strategy) (c : Z) : Strategy :=
  {| models := models st; weights := weights st; retrain_c := retrain_c st;
     trade_c := c; X_buf := X_buf st; y_buf := y_buf st;
     position := position st |}.

Definition set_bufs (st : Strategy) (X : list (list fl)) (y : list fl) : Strategy :=
  {| models := models st; weights := weights st; retrain_c := retrain_c st;
     trade_c := trade_c st; X_buf := X; y_buf := y;
     position := position st |}.

Definition set_position (st : Strategy) (p : PositionState) : Strategy :=
  {| models := models st; weights := weights st; retrain_c := retrain_c st;
     trade_c := trade_c st; X_buf := X_buf st; y_buf := y_buf st;
     position := p |}.

(** The smoothing constant [1e-8] of [_update_weights]. *)
Definition eps : Q := 1 # 100000000.

Section MetaVoteStrategyV2.

Variable E : Estimators.
Variable cfg : Config.

(** [init]: the comprehension evaluates [1/len(base_models)] once per
    key, hence never on an empty dictionary. *)
Definition init : Strategy :=
  {| models := base_models cfg;
     weights := map (fun km => (fst km, fdiv (Fin 1) (of_len (base_models cfg))))
                    (base_models cfg);
     retrain_c := 0;
     trade_c := 0;
     X_buf := [];
     y_buf := [];
     position := Flat |}.

(** The weighted sum of [_pred], accumulated from [0] in the order of
    [preds]; [self.weights[k]] raises when the key is missing. *)
Fixpoint weighted_sum (ws : list (string * fl)) (acc : fl)
         (preds : list (string * fl)) : result fl :=
  match preds with
  | [] => Ok acc
  | (k, p) :: preds' =>
      w <- getitem ws k ;;
      weighted_sum ws (fadd acc (fmul p w)) preds'
  end.

Definition _pred (df : DataFrame) (st : Strategy) : result fl :=
  feats <- mapM (fun col => iloc_m1 (column df col)) (feat_cols cfg) ;;
  let preds := map (fun km => (fst km, predict (snd km) feats)) (models st) in
  weighted_sum (weights st) (Fin 0) preds.

(** The returns the reweighting compares with:
    [self.data.df['Close'].pct_change().iloc[-60:]]. *)
Definition recent_rets (df : DataFrame) : list fl :=
  lastn 60 (pct_change (column df "Close")).

(** [np.mean(np.abs(m.predict(X_recent) - rets.values))]. *)
Definition trailing_mae (rets : list fl) (X_recent : list (list fl)) (m : Model)
  : result fl :=
  d <- np_sub (predict_batch m X_recent) rets ;;
  Ok (np_mean (map fabs d)).

(** The last two statements of [_update_weights]. *)
Definition inverse_error (e : fl) : fl := fdiv (Fin 1) (fadd e (Fin eps)).

Definition inverse_error_weights (mae : list (string * fl)) : list (string * fl) :=
  let total := fsum (map (fun ke => inverse_error (snd ke)) mae) in
  map (fun ke => (fst ke, fdiv (inverse_error (snd ke)) total)) mae.

(** The weights [_update_weights] computes from a given registry, or the
    weights it leaves in place when it returns early. *)
Definition reweighted (df : DataFrame) (ms : list (string * Model))
           (X : list (list fl)) (old : list (string * fl))
  : result (list (string * fl)) :=
  let rets := recent_rets df in
  if forallb isnan rets then Ok old
  else
    let X_recent := lastn 60 X in
    if (length X_recent <? 60)%nat then Ok old
    else
      mae <- mapM (fun km => e <- trailing_mae rets X_recent (snd km) ;;
                             Ok (fst km, e)) ms ;;
      Ok (inverse_error_weights mae).

Definition _update_weights (df : DataFrame) (st : Strategy) : result Strategy :=
  ws <- reweighted df (models st) (X_buf st) (weights st) ;;
  Ok (set_weights st ws).

(** [next], one statement group after the other. *)

(** "Buffer the previous bar's features/label". *)
Definition buffer_step (df : DataFrame) (st : Strategy) : result Strategy :=
  if (1 <? length df)%nat then
    feat_vec <- mapM (fun col => iloc_m2 (column df col)) (feat_cols cfg) ;;
    label <- iloc_m1 (pct_change (column df "Close")) ;;
    if negb (isnan label) then
      Ok (set_bufs st (deque_append (window_len cfg) (X_buf st) feat_vec)
                      (deque_append (window_len cfg) (y_buf st) label))
    else Ok st
  else Ok st.

(** "Trading decision", given the prediction [z]. *)
Definition decide (z : fl) (st : Strategy) : Strategy :=
  if fgt z (trade_threshold cfg) && negb (is_long (position st)) then
    set_trade_c (set_position st (buy (position_close (position st))))
                (trade_c st + 1)
  else if flt z (fneg (trade_threshold cfg)) && negb (is_short (position st)) then
    set_trade_c (set_position st (sell (position_close (position st))))
                (trade_c st + 1)
  else st.

Definition trade_step (df : DataFrame) (st : Strategy) : result Strategy :=
  z <- _pred df st ;;
  Ok (decide z st).

(** "Scheduled retrain".  Python evaluates the modulo before the length
    test, and raises on a zero divisor. *)
Definition retrain_due (st : Strategy) : bool :=
  (retrain_c st mod retrain_every cfg =? 0) && (500 <? length (X_buf st))%nat.

Definition retrain_step (st : Strategy) : result Strategy :=
  let st1 := set_retrain_c st (retrain_c st + 1) in
  if retrain_every cfg =? 0 then Raise ZeroDivisionError
  else if retrain_due st1 then
    Ok (set_models st1 (fit_models_on_gpu E (X_buf st1) (y_buf st1)))
  else Ok st1.

(** "Scheduled weight refresh". *)
Definition reweight_due (st : Strategy) : bool :=
  reweight_every_trades cfg <=? trade_c st.

Definition reweight_step (df : DataFrame) (st : Strategy) : result Strategy :=
  if reweight_due st then
    st' <- _update_weights df st ;;
    Ok (set_trade_c st' 0)
  else Ok st.

Definition next (df : DataFrame) (st : Strategy) : result Strategy :=
  st1 <- buffer_step df st ;;
  st2 <- trade_step df st1 ;;
  st3 <- retrain_step st2 ;;
  reweight_step df st3.

(** The driver of the backtest: bar [i] reveals the rows [0..i] and calls
    [next]; [n] bars are processed starting from bar [i]. *)
Fixpoint run_bars (data : DataFrame) (i n : nat) (st : Strategy) : result Strategy :=
  match n with
  | O => Ok st
  | S n' =>
      st' <- next (firstn (S i) data) st ;;
      run_bars data (S i) n' st'
  end.

(** A whole run: [init], then every bar from the first one that has a
    predecessor. *)
Definition run (data : DataFrame) : result Strategy :=
  run_bars data 1 (length data - 1) init.

End MetaVoteStrategyV2.

(** ** Vocabulary of the statements *)

(** A sequence of [deque.append]s. *)
Definition push_all {A : Type} (maxlen : nat) (d xs : list A) : list A :=
  fold_left (deque_append maxlen) xs d.

(** [s] is what remains of [l] after dropping some of its oldest elements. *)
Definition suffix_of {A : Type} (s l : list A) : Prop :=
  exists p, l = p ++ s.

(** The close-to-close returns of a whole data set; entry [i] is the return
    of bar [i] relative to bar [i-1]. *)
Definition returns (data : DataFrame) : list fl :=
  pct_change (column data "Close").

(** A value that is not [NaN]. *)
Definition defined (x : fl) : bool := negb (isnan x).

(** The return of a bar with row [r] whose predecessor has row [rp]. *)
Definition label_of (rp r : Row) : fl :=
  fsub (fdiv (r "Close"%string) (rp "Close"%string)) (Fin 1).

Definition no_row : Row := fun _ => NaN.

(** The sample that becomes known at bar [i]: the features of bar [i-1]
    with the return of bar [i], provided that return is defined. *)
Definition bar_sample (cfg : Config) (data : DataFrame) (i : nat)
  : list (list fl * fl) :=
  let label := nth i (returns data) NaN in
  if isnan label then []
  else [(map (nth (i - 1) data no_row) (feat_cols cfg), label)].

(** All samples that become known at the bars [i, i+1, ..., i+n-1]. *)
Definition pushed (cfg : Config) (data : DataFrame) (i n : nat)
  : list (list fl * fl) :=
  flat_map (bar_sample cfg data) (seq i n).

(** The samples held by the two deques, feature vector with label. *)
Definition samples (st : Strategy) : list (list fl * fl) :=
  combine (X_buf st) (y_buf st).

(** The mean absolute error of a model on buffered samples, each
    prediction compared with the label stored with its feature vector. *)
Definition mae_buffered (m : Model) (ss : list (list fl * fl)) : fl :=
  np_mean (map (fun s => fabs (fsub (predict m (fst s)) (snd s))) ss).

Definition Qsum (l : list Q) : Q := fold_right Qplus 0%Q l.



(** Every weight of the dictionary is [1/count]. *)
Definition uniform (ws : list (string * fl)) : Prop :=
  forall k w, In (k, w) ws ->
    exists q, w = Fin q /\ (q == 1 / inject_Z (Z.of_nat (length ws)))%Q.

(** The states a run goes through, one per bar. *)
Fixpoint run_trace (E : Estimators) (cfg : Config) (data : DataFrame)
         (i n : nat) (st : Strategy) : result (list Strategy) :=
  match n with
  | O => Ok []
  | S n' =>
      st' <- next E cfg (firstn (S i) data) st ;;
      tr <- run_trace E cfg data (S i) n' st' ;;
      Ok (st' :: tr)
  end.

(** Equality of values: of the numbers, not of their fractions. *)
Definition feq (x y : fl) : Prop :=
  match x, y with
  | Fin a, Fin b => (a == b)%Q
  | PInf, PInf | NInf, NInf | NaN, NaN => True
  | _, _ => False
  end.

(** The decision procedure for [uniform]. *)
Definition uniformb (ws : list (string * fl)) : bool :=
  forallb (fun kw => match snd kw with
                     | Fin q => Qeq_bool q (1 / inject_Z (Z.of_nat (length ws)))
                     | _ => false
                     end) ws.

(** The positions a sequence of predictions leads through. *)
Fixpoint decide_all (cfg : Config) (zs : list fl) (st : Strategy) : list Strategy :=
  match zs with
  | [] => []
  | z :: zs' => let st' := decide cfg z st in st' :: decide_all cfg zs' st'
  end.

(** The state a step ended in, [d] if it raised. *)
Definition state_of (r : result Strategy) (d : Strategy) : Strategy :=
  match r with
  | Ok st => st
  | Raise _ => d
  end.

(** The state before and the state after the bar that follows [n] bars of
    a run. *)
Definition bar_states (E : Estimators) (cfg : Config) (data : DataFrame) (n : nat)
  : result (Strategy * Strategy) :=
  before <- run_bars E cfg data 1 n (init cfg) ;;
  after <- next E cfg (firstn (S (S n)) data) before ;;
  Ok (before, after).

(** What a bar did: whether its retrain was due, whether it left uniform
    weights, and the retrain counter before and after it. *)
Definition retrain_report (cfg : Config) (r : result (Strategy * Strategy))
  : option (bool * bool * Z * Z) :=
  match r with
  | Ok (before, after) =>
      Some (retrain_due cfg after, uniformb (weights after),
            retrain_c before, retrain_c after)
  | Raise _ => None
  end.

(** ** Scenarios *)

Module Scenario.

(** A bar with its close and one feature column, [f]. *)
Definition bar (close f : fl) : Row :=
  fun col =>
    if String.eqb col "Close" then close
    else if String.eqb col "f" then f
    else NaN.

(** A model that answers with the feature itself. *)
Definition echo : Model := {| predict := fun x => hd NaN x |}.

(** A model that answers [k * f + c]. *)
Definition affine (k : Q) (c : fl) : Model :=
  {| predict := fun x => fadd (fmul (Fin k) (hd NaN x)) c |}.

(** Estimators whose fitted models differ in slope and carry the size of
    the batch they were fitted on. *)
Definition estimators : Estimators :=
  {| XGBRegressor_fit := fun _ y => affine 1 (of_len y);
     LGBMRegressor_fit := fun _ y => affine 2 (of_len y);
     CatBoostRegressor_fit := fun _ y => affine 3 (of_len y);
     RandomForestRegressor_fit := fun _ y => affine 4 (of_len y) |}.

(** Cold start: two models at weight 1/2 each, threshold 0, and five bars
    on which the ensemble predicts 0.1, -0.2, 0.05, 0.3, -0.1. *)
Definition cold_cfg : Config :=
  {| base_models := [("a"%string, echo); ("b"%string, echo)];
     feat_cols := ["f"%string];
     trade_threshold := Fin 0;
     retrain_every := RETRAIN_EVERY;
     reweight_every_trades := REWEIGHT_TRADES;
     window_len := WINDOW_LEN |}.

Definition cold_predictions : list fl :=
  [Fin (1 # 10); Fin (- 2 # 10); Fin (5 # 100); Fin (3 # 10); Fin (- 1 # 10)].

Definition cold_data : DataFrame :=
  bar (Fin 100) (Fin 0)
  :: map (fun cz => bar (Fin (fst cz)) (snd cz))
         (combine [101; 100; 102; 103; 101]%Q cold_predictions).

(** Eviction: capacity 5 and nine bars whose returns are 1, 2, ..., 8. *)
Definition evict_cfg : Config :=
  {| base_models := [("a"%string, echo)];
     feat_cols := ["f"%string];
     trade_threshold := Fin 0;
     retrain_every := RETRAIN_EVERY;
     reweight_every_trades := REWEIGHT_TRADES;
     window_len := 5 |}.

Definition evict_data : DataFrame :=
  map (fun cf => bar (Fin (inject_Z (fst cf))) (Fin (inject_Z (snd cf))))
      (combine [1; 2; 6; 24; 120; 720; 5040; 40320; 362880]
               [0; 1; 2; 3; 4; 5; 6; 7; 8]).

(** A long run: flat prices, a feature that turns from 1 to -1 at bar 61,
    a retrain every 501 bars and a reweight every 2 trades.  The second
    trade, at bar 61, triggers a reweight on 61 buffered samples; bar 501
    is the first with more than 500 samples and a counter divisible by
    501. *)
Definition long_cfg : Config :=
  {| base_models := fit_models_on_gpu estimators [] [];
     feat_cols := ["f"%string];
     trade_threshold := Fin 0;
     retrain_every := 501;
     reweight_every_trades := 2;
     window_len := 600 |}.

Definition turning (i : nat) : fl :=
  if (i <? 61)%nat then Fin 1 else Fin (- (1)).

Definition long_data : DataFrame :=
  map (fun i => bar (Fin 1) (turning i)) (seq 0 502).

(** The same 62 first bars, but with no close at bar 61. *)
Definition gap_data : DataFrame :=
  map (fun i => bar (if (i =? 61)%nat then NaN else Fin 1) (turning i))
      (seq 0 62).


(** A synthetic instance at the point of a retrain: 501 buffered samples
    and a counter one short of the interval 3; one trade is pending for a
    reweight every trade. *)
Definition due_cfg : Config :=
  {| base_models := fit_models_on_gpu estimators [] [];
     feat_cols := ["f"%string];
     trade_threshold := Fin 0;
     retrain_every := 3;
     reweight_every_trades := 1;
     window_len := 600 |}.

Definition due_state : Strategy :=
  {| models := base_models due_cfg;
     weights := [("xgb"%string, Fin (4 # 10)); ("lgb"%string, Fin (3 # 10));
                 ("cat"%string, Fin (2 # 10)); ("rf"%string, Fin (1 # 10))];
     retrain_c := 2;
     trade_c := 1;
     X_buf := repeat [Fin 1] 501;
     y_buf := repeat (Fin 0) 501;
     position := Long |}.

Definition flat_data : DataFrame :=
  map (fun _ => bar (Fin 1) (Fin 1)) (seq 0 61).

(** The same instance with the default reweight cadence: no reweight is
    pending. *)
Definition calm_cfg : Config :=
  {| base_models := base_models due_cfg;
     feat_cols := feat_cols due_cfg;
     trade_threshold := trade_threshold due_cfg;
     retrain_every := retrain_every due_cfg;
     reweight_every_trades := REWEIGHT_TRADES;
     window_len := window_len due_cfg |}.

(** Two bars, the second without a close. *)
Definition gap_pair : DataFrame :=
  [bar (Fin 1) (Fin 1); bar NaN (Fin 1)].

(** No model registered. *)
Definition empty_cfg (threshold : fl) : Config :=
  {| base_models := [];
     feat_cols := ["f"%string];
     trade_threshold := threshold;
     retrain_every := RETRAIN_EVERY;
     reweight_every_trades := REWEIGHT_TRADES;
     window_len := WINDOW_LEN |}.

(** States the scenarios go through. *)
Definition cold_end : Strategy :=
  state_of (run_bars estimators cold_cfg cold_data 1 5 (init cold_cfg))
           (init cold_cfg).

Definition evict_end : Strategy :=
  state_of (run_bars estimators evict_cfg evict_data 1 8 (init evict_cfg))
           (init evict_cfg).

Definition due_buffered : Strategy :=
  state_of (buffer_step due_cfg flat_data due_state) due_state.

Definition due_traded : Strategy :=
  state_of (trade_step due_cfg flat_data due_buffered) due_state.

Definition calm_end : Strategy :=
  state_of (next estimators calm_cfg flat_data due_state) due_state.

Definition long_60 : Strategy :=
  state_of (run_bars estimators long_cfg long_data 1 60 (init long_cfg))
           (init long_cfg).

Definition long_61_buffered : Strategy :=
  state_of (buffer_step long_cfg (firstn (S (1 + 60)) long_data) long_60)
           (init long_cfg).

Definition long_61_traded : Strategy :=
  state_of (trade_step long_cfg (firstn (S (1 + 60)) long_data) long_61_buffered)
           (init long_cfg).

Definition long_61_retrained : Strategy :=
  state_of (retrain_step estimators long_cfg long_61_traded) (init long_cfg).

End Scenario.

(** ** The rest of the notebooks *)

(** *** Column check of the loader *)

(** The five columns [verify_cols] asks for: [f'{asset}_{c}']. *)
Definition needed_cols (asset : string) : list string :=
  map (fun c => (asset ++ "_" ++ c)%string)
      ["open"%string; "high"%string; "low"%string; "close"%string;
       "volume"%string].

(** [c in df.columns]. *)
Definition has_column (columns : list string) (c : string) : bool :=
  existsb (String.eqb c) columns.

Definition missing_cols (asset : string) (columns : list string) : list string :=
  filter (fun c => negb (has_column columns c)) (needed_cols asset).

(** [verify_cols]: the frame itself comes back, or [ValueError] is raised
    when the list of missing columns is not empty.  A frame is anything
    that has column names. *)
Definition verify_cols {F : Type} (columns : F -> list string) (df : F)
           (asset : string) : result F :=
  match missing_cols asset (columns df) with
  | [] => Ok df
  | _ :: _ => Raise ValueError
  end.

(** *** Training target *)

(** [Series.shift(-1)]: every entry moves one place up, the last place is
    left without a value. *)
Definition shift_m1 (s : list fl) : list fl :=
  match s with
  | [] => []
  | _ :: s' => s' ++ [NaN]
  end.

(** The target column of the training frames,
    [pct_change().shift(-1)]: the return of the next bar.  A missing value
    is [NaN] here. *)
Definition r_next (closes : list fl) : list fl :=
  shift_m1 (pct_change closes).

(** *** Direction labels of [add_indicators] *)

(** [np.sign]. *)
Definition np_sign (x : fl) : fl :=
  match x with
  | Fin q => if Qpos q then Fin 1 else if Qzero q then Fin 0 else Fin (- (1))
  | PInf => Fin 1
  | NInf => Fin (- (1))
  | NaN => NaN
  end.

(** [Series.replace(0, np.nan)]. *)
Definition replace_zero (s : list fl) : list fl :=
  map (fun x => match x with
                | Fin q => if Qzero q then NaN else x
                | _ => x
                end) s.

(** [Series.bfill()]: a missing value takes the next value that is not
    missing, if there is one. *)
Fixpoint bfill (s : list fl) : list fl :=
  match s with
  | [] => []
  | x :: s' =>
      let r := bfill s' in
      (if isnan x then hd NaN r else x) :: r
  end.

(** [np.sign(df['return']).replace(0, np.nan).bfill()]. *)
Definition direction (returns : list fl) : list fl :=
  bfill (replace_zero (map np_sign returns)).

(** *** Regime signal of [train_hmm] *)

(** [pd.Series(states).map({states[0]: 1, 1 - states[0]: -1})]: a state
    that is no key of the dictionary maps to [NaN]; [states[0]] raises on an
    empty array. *)
Definition hmm_signal (states : list Z) : result (list fl) :=
  match states with
  | [] => Raise IndexError
  | s0 :: _ =>
      Ok (map (fun s => if s =? s0 then Fin 1
                        else if s =? 1 - s0 then Fin (- (1))
                        else NaN) states)
  end.

(** *** Windows of [prepare_dl_data] *)

(** [X[i:i+w]]. *)
Definition window_at {A : Type} (w : nat) (X : list A) (i : nat) : list A :=
  firstn w (skipn i X).

Definition WINDOW : nat := 20.

(** [prepare_dl_data], for a window length [w] ([WINDOW] in the notebook):
    [range(len(X) - w)] is empty when the difference is negative. *)
Definition prepare_dl_data {A B : Type} (w : nat) (X : list A) (y : list B)
  : list (list A) * list B :=
  (map (window_at w X) (seq 0 (length X - w)), skipn w y).

(** *** [MLStrategy] *)

(** The three kinds of model the class attribute [model] holds: a Keras
    network, which predicts on a window of rows; [None], for the regime
    signal; any other estimator, which predicts on one row. *)
Inductive MLModel : Type :=
| KerasModel (predict_window : list (list fl) -> fl)
| NoModel
| RowModel (m : Model).

Record MLConfig : Type := {
  ml_model : MLModel;
  ml_feats : list string;
  ml_window : nat
}.

(** [df[self.feats].iloc[-self.window:].values]; a slice from [-0] is the
    whole frame. *)
Definition last_rows (w : nat) (feats : list string) (df : DataFrame)
  : list (list fl) :=
  map (fun r => map r feats)
      (match w with O => df | S _ => lastn w df end).

Definition ml_predict (c : MLConfig) (df : DataFrame) : result fl :=
  match ml_model c with
  | KerasModel predict_window =>
      if (length df <? ml_window c)%nat then Ok (Fin 0)
      else Ok (predict_window (last_rows (ml_window c) (ml_feats c) df))
  | NoModel => iloc_m1 (column df "hmm_signal")
  | RowModel m =>
      row <- mapM (fun f => iloc_m1 (column df f)) (ml_feats c) ;;
      Ok (predict m row)
  end.

(** The decision of [MLStrategy.next] on a prediction. *)
Definition ml_decide (pred : fl) (p : PositionState) : PositionState :=
  let sig := np_sign pred in
  if fgt sig (Fin 0) && negb (is_long p) then buy (position_close p)
  else if flt sig (Fin 0) && negb (is_short p) then sell (position_close p)
  else p.

Definition ml_next (c : MLConfig) (df : DataFrame) (p : PositionState)
  : result PositionState :=
  pred <- ml_predict c df ;;
  Ok (ml_decide pred p).

(** *** Vocabulary for the registry *)

(** The names [fit_models_on_gpu] gives its models. *)
Definition fitted_names : list string :=
  ["xgb"%string; "lgb"%string; "cat"%string; "rf"%string].

(** The names of a dictionary, in order. *)
Definition keys {V : Type} (d : list (string * V)) : list string := map fst d.

(** A registry and weights under the names of [fit_models_on_gpu], as the
    notebook builds them. *)
Definition fitted_registry (st : Strategy) : Prop :=
  keys (models st) = fitted_names /\ keys (weights st) = fitted_names.

(** Every weight is [NaN]. *)
Definition all_nan (ws : list (string * fl)) : bool :=
  forallb (fun kw => isnan (snd kw)) ws.

(** The dot product of predictions and weights. *)
Fixpoint dot (ps ws : list Q) : Q :=
  match ps, ws with
  | p :: ps', w :: ws' => (p * w + dot ps' ws')%Q
  | _, _ => 0%Q
  end.

(** *** Column lookup on a frame

    A pandas frame carries its column labels, and [df[col]] raises
    [KeyError] for a label that is not among them.  The methods of
    [MetaVoteStrategyV2] once more, on a frame with its labels, lookup by
    lookup; where every label asked for is there they are the methods
    above on the rows. *)

Record Frame : Type := {
  frame_columns : list string;
  frame_rows : DataFrame
}.

(** [df[col]]. *)
Definition getcol (f : Frame) (col : string) : result (list fl) :=
  if has_column (frame_columns f) col then Ok (column (frame_rows f) col)
  else Raise (KeyError col).

(** The first of the labels [cols] that the frame does not carry. *)
Definition first_missing (columns cols : list string) : option string :=
  find (fun c => negb (has_column columns c)) cols.

Section OnFrames.

Variable E : Estimators.
Variable cfg : Config.

Definition _pred_on (f : Frame) (st : Strategy) : result fl :=
  feats <- mapM (fun col => s <- getcol f col ;; iloc_m1 s) (feat_cols cfg) ;;
  let preds := map (fun km => (fst km, predict (snd km) feats)) (models st) in
  weighted_sum (weights st) (Fin 0) preds.

Definition reweighted_on (f : Frame) (ms : list (string * Model))
           (X : list (list fl)) (old : list (string * fl))
  : result (list (string * fl)) :=
  close <- getcol f "Close" ;;
  let rets := lastn 60 (pct_change close) in
  if forallb isnan rets then Ok old
  else
    let X_recent := lastn 60 X in
    if (length X_recent <? 60)%nat then Ok old
    else
      mae <- mapM (fun km => e <- trailing_mae rets X_recent (snd km) ;;
                             Ok (fst km, e)) ms ;;
      Ok (inverse_error_weights mae).

Definition _update_weights_on (f : Frame) (st : Strategy) : result Strategy :=
  ws <- reweighted_on f (models st) (X_buf st) (weights st) ;;
  Ok (set_weights st ws).

Definition buffer_step_on (f : Frame) (st : Strategy) : result Strategy :=
  if (1 <? length (frame_rows f))%nat then
    feat_vec <- mapM (fun col => s <- getcol f col ;; iloc_m2 s) (feat_cols cfg) ;;
    close <- getcol f "Close" ;;
    label <- iloc_m1 (pct_change close) ;;
    if negb (isnan label) then
      Ok (set_bufs st (deque_append (window_len cfg) (X_buf st) feat_vec)
                      (deque_append (window_len cfg) (y_buf st) label))
    else Ok st
  else Ok st.

Definition trade_step_on (f : Frame) (st : Strategy) : result Strategy :=
  z <- _pred_on f st ;;
  Ok (decide cfg z st).

Definition reweight_step_on (f : Frame) (st : Strategy) : result Strategy :=
  if reweight_due cfg st then
    st' <- _update_weights_on f st ;;
    Ok (set_trade_c st' 0)
  else Ok st.

Definition next_on (f : Frame) (st : Strategy) : result Strategy :=
  st1 <- buffer_step_on f st ;;
  st2 <- trade_step_on f st1 ;;
  st3 <- retrain_step E cfg st2 ;;
  reweight_step_on f st3.

(** The driver on a data set whose frame carries the labels [columns]. *)
Fixpoint run_bars_on (columns : list string) (data : DataFrame) (i n : nat)
         (st : Strategy) : result Strategy :=
  match n with
  | O => Ok st
  | S n' =>
      st' <- next_on {| frame_columns := columns;
                        frame_rows := firstn (S i) data |} st ;;
      run_bars_on columns data (S i) n' st'
  end.

End OnFrames.

(** *** The inverse-error rule in binary64

    The last two statements of [_update_weights] on IEEE 754 binary64
    numbers, with their rounding: [1e-8] is the binary64 number nearest to
    it, as in Python. *)

Module Binary64.

Import Floats.PrimFloat.
#[local] Set Warnings "-inexact-float".

Definition eps64 : float := 1e-8%float.

Definition inverse_error64 (e : float) : float := (1 / (e + eps64))%float.

(** Python's [sum]: a left fold starting from [0]. *)
Definition fsum64 (l : list float) : float := fold_left add l 0%float.

Definition inverse_error_weights64 (mae : list (string * float))
  : list (string * float) :=
  let total := fsum64 (map (fun ke => inverse_error64 (snd ke)) mae) in
  map (fun ke => (fst ke, (inverse_error64 (snd ke) / total)%float)) mae.

Definition tiny : float := 1e-30%float.

(** Errors 0 and 1e-30. *)
Definition close_errors : list (string * float) :=
  [("a"%string, 0%float); ("b"%string, tiny)].

(** Errors 1, 2 and 3. *)
Definition plain_errors : list (string * float) :=
  [("a"%string, 1%float); ("b"%string, 2%float); ("c"%string, 3%float)].

End Binary64.

(** ** Further scenarios *)

Module Cases.

(** The gap run to its end: bar 61 has no close and its reweight leaves
    every weight [NaN]. *)
Definition gap_end : Strategy :=
  state_of (run_bars Scenario.estimators Scenario.long_cfg Scenario.gap_data
                     1 61 (init Scenario.long_cfg))
           (init Scenario.long_cfg).

(** Three more bars, with closes and with changing features. *)
Definition gap_later : Strategy :=
  state_of (run_bars Scenario.estimators Scenario.long_cfg Scenario.cold_data
                     1 3 gap_end)
           gap_end.


(** One trade counted, none buffered, under a reweight every trade. *)
Definition idle_state : Strategy :=
  set_trade_c (init Scenario.due_cfg) 1.

Definition cold_buffered : Strategy :=
  state_of (buffer_step Scenario.cold_cfg (firstn 2 Scenario.cold_data)
                        (init Scenario.cold_cfg))
           (init Scenario.cold_cfg).

(** The cold start with a retrain interval of 0. *)
Definition halted_cfg : Config :=
  {| base_models := base_models Scenario.cold_cfg;
     feat_cols := feat_cols Scenario.cold_cfg;
     trade_threshold := trade_threshold Scenario.cold_cfg;
     retrain_every := 0;
     reweight_every_trades := reweight_every_trades Scenario.cold_cfg;
     window_len := window_len Scenario.cold_cfg |}.

(** The labels of a frame without the feature [f], of one without the
    close, and of one that has both. *)
Definition close_only : list string := ["Close"%string].
Definition feature_only : list string := ["f"%string].
Definition close_and_feature : list string := ["Close"%string; "f"%string].

(** A Keras network under the window of the notebook. *)
Definition keras_cfg : MLConfig :=
  {| ml_model := KerasModel (fun _ => Fin 1);
     ml_feats := ["f"%string];
     ml_window := WINDOW |}.

End Cases.

(** ** Proof automation *)

Ltac inv_ok :=
  match goal with
  | H : Ok _ = Ok _ |- _ => injection H as H; try subst
  | H : Raise _ = Ok _ |- _ => discriminate H
  | H : bind ?r _ = Ok _ |- _ =>
      let a := fresh "st" in
      let H1 := fresh "Hstep" in
      destruct r as [a|] eqn:H1; [cbn [bind] in H | discriminate H]
  end.

(** * Properties *)

Section Lastn.
Context {A : Type}.
Implicit Types l : list A.

Lemma lastn_length n l : length (lastn n l) = Nat.min n (length l).
Proof. unfold lastn. rewrite length_skipn. lia. Qed.

Lemma lastn_all n l : (length l <= n)%nat -> lastn n l = l.
Proof.
  intros H. unfold lastn.
  replace (length l - n)%nat with 0%nat by lia. reflexivity.
Qed.

Lemma lastn_suffix n l : exists p, l = p ++ lastn n l.
Proof.
  exists (firstn (length l - n) l). unfold lastn.
  symmetry. apply firstn_skipn.
Qed.

Lemma lastn_app_long n l1 l2 :
  (n <= length l2)%nat -> lastn n (l1 ++ l2) = lastn n l2.
Proof.
  intros H. unfold lastn. rewrite length_app, skipn_app.
  replace (length l1 + length l2 - n - length l1)%nat with (length l2 - n)%nat by lia.
  rewrite skipn_all2 by lia. reflexivity.
Qed.

Lemma lastn_app_short n l1 l2 :
  (length l2 <= n)%nat -> lastn n (l1 ++ l2) = lastn (n - length l2) l1 ++ l2.
Proof.
  intros H. unfold lastn. rewrite length_app, skipn_app.
  replace (length l1 + length l2 - n - length l1)%nat with 0%nat by lia.
  replace (length l1 + length l2 - n)%nat with (length l1 - (n - length l2))%nat by lia.
  reflexivity.
Qed.

Lemma lastn_lastn n m l : (n <= m)%nat -> lastn n (lastn m l) = lastn n l.
Proof.
  intros H. unfold lastn at 1 3. rewrite lastn_length.
  unfold lastn. rewrite skipn_skipn. f_equal. lia.
Qed.

Lemma lastn_push n l x : lastn n (lastn n l ++ [x]) = lastn n (l ++ [x]).
Proof.
  destruct n as [|n].
  - unfold lastn. rewrite !skipn_all2; auto; rewrite ?length_app; simpl; lia.
  - rewrite !lastn_app_short by (simpl; lia). simpl.
    rewrite lastn_lastn by lia. reflexivity.
Qed.
End Lastn.

(** ** The bounded deque *)

Lemma push_all_lastn {A : Type} (W : nat) (xs l : list A) :
  push_all W (lastn W l) xs = lastn W (l ++ xs).
Proof.
  revert l. induction xs as [|x xs IH]; intros l; simpl.
  - rewrite app_nil_r. reflexivity.
  - change (push_all W (deque_append W (lastn W l) x) xs = lastn W (l ++ x :: xs)).
    unfold deque_append. rewrite lastn_push, IH, <- app_assoc. reflexivity.
Qed.

Lemma push_all_empty {A : Type} (W : nat) (xs : list A) :
  push_all W [] xs = lastn W xs.
Proof. exact (push_all_lastn W xs []). Qed.

Lemma push_all_app {A : Type} (W : nat) (d xs ys : list A) :
  push_all W d (xs ++ ys) = push_all W (push_all W d xs) ys.
Proof. unfold push_all. apply fold_left_app. Qed.

Lemma lastn_combine {A B : Type} (n : nat) (l1 : list A) (l2 : list B) :
  length l1 = length l2 ->
  combine (lastn n l1) (lastn n l2) = lastn n (combine l1 l2).
Proof.
  intros H. unfold lastn. rewrite length_combine, <- H, Nat.min_id.
  generalize (length l1 - n)%nat as k. clear n.
  revert l2 H. induction l1 as [|a l1 IH]; intros [|b l2] H k; simpl in *;
    try discriminate; destruct k; simpl; auto.
Qed.

Lemma lastn_map {A B : Type} (f : A -> B) (n : nat) (l : list A) :
  map f (lastn n l) = lastn n (map f l).
Proof. unfold lastn. rewrite length_map. symmetry. apply skipn_map. Qed.

(** ** Series and the buffering step *)

Lemma mapM_pure {A B : Type} (f : A -> result B) (g : A -> B) (l : list A) :
  (forall a, In a l -> f a = Ok (g a)) -> mapM f l = Ok (map g l).
Proof.
  induction l as [|a l IH]; intros H; simpl.
  - reflexivity.
  - rewrite (H a) by (left; reflexivity). simpl.
    rewrite IH by (intros; apply H; right; assumption). reflexivity.
Qed.

Lemma iloc_m1_snoc (s : list fl) (x : fl) : iloc_m1 (s ++ [x]) = Ok x.
Proof. unfold iloc_m1. rewrite rev_app_distr. reflexivity. Qed.

Lemma iloc_m2_snoc (s : list fl) (y x : fl) : iloc_m2 (s ++ [y; x]) = Ok y.
Proof. unfold iloc_m2. rewrite rev_app_distr. reflexivity. Qed.

Lemma column_app (d1 d2 : DataFrame) (c : string) :
  column (d1 ++ d2) c = column d1 c ++ column d2 c.
Proof. apply map_app. Qed.

Lemma last_cons_default {A : Type} (l : list A) (x p : A) :
  last (x :: l) p = last l x.
Proof.
  revert x p. induction l as [|y l IH]; intros x p.
  - reflexivity.
  - change (last (x :: y :: l) p) with (last (y :: l) p).
    rewrite IH. symmetry. apply IH.
Qed.

Lemma pct_from_app (p : fl) (s1 s2 : list fl) :
  pct_from p (s1 ++ s2) = pct_from p s1 ++ pct_from (last s1 p) s2.
Proof.
  revert p. induction s1 as [|x s1 IH]; intros p.
  - reflexivity.
  - rewrite last_cons_default. simpl. now rewrite IH.
Qed.

Lemma pct_from_length (p : fl) (s : list fl) : length (pct_from p s) = length s.
Proof. revert p. induction s; intros; simpl; auto. Qed.

Lemma pct_from_firstn (k : nat) (p : fl) (s : list fl) :
  pct_from p (firstn k s) = firstn k (pct_from p s).
Proof.
  revert p s. induction k; intros p [|x s]; simpl; auto. now rewrite IHk.
Qed.

Lemma returns_firstn (k : nat) (data : DataFrame) :
  returns (firstn k data) = firstn k (returns data).
Proof.
  unfold returns, pct_change, column. rewrite <- pct_from_firstn, firstn_map.
  reflexivity.
Qed.

Lemma returns_length (data : DataFrame) : length (returns data) = length data.
Proof. unfold returns, pct_change, column. now rewrite pct_from_length, length_map. Qed.

(** The return of the last bar of [pre ++ [rp; r]]. *)
Lemma returns_snoc2 (pre : DataFrame) (rp r : Row) :
  returns (pre ++ [rp; r]) =
  returns (pre ++ [rp]) ++ [label_of rp r].
Proof.
  unfold returns, pct_change.
  change (pre ++ [rp; r]) with (pre ++ [rp] ++ [r]).
  rewrite app_assoc, column_app, pct_from_app.
  do 2 f_equal. rewrite column_app. simpl. now rewrite last_last.
Qed.

Section BufferStep.
Variable cfg : Config.

Lemma buffer_step_short (df : DataFrame) (st : Strategy) :
  (length df <= 1)%nat -> buffer_step cfg df st = Ok st.
Proof.
  intros H. unfold buffer_step.
  destruct (Nat.ltb_spec 1 (length df)); [lia | reflexivity].
Qed.

Lemma buffer_step_snoc2 (pre : DataFrame) (rp r : Row) (st : Strategy) :
  buffer_step cfg (pre ++ [rp; r]) st =
  Ok (if isnan (label_of rp r) then st
      else set_bufs st
             (deque_append (window_len cfg) (X_buf st) (map rp (feat_cols cfg)))
             (deque_append (window_len cfg) (y_buf st) (label_of rp r))).
Proof.
  unfold buffer_step.
  destruct (Nat.ltb_spec 1 (length (pre ++ [rp; r]))) as [_|H];
    [| rewrite length_app in H; simpl in H; lia].
  rewrite (mapM_pure _ rp).
  2:{ intros c _. rewrite column_app. apply iloc_m2_snoc. }
  simpl. fold (returns (pre ++ [rp; r])).
  rewrite returns_snoc2, iloc_m1_snoc. simpl. fold (label_of rp r).
  destruct (isnan (label_of rp r)); reflexivity.
Qed.

(** The buffering step never raises. *)
Lemma buffer_step_total (df : DataFrame) (st : Strategy) :
  exists st1, buffer_step cfg df st = Ok st1.
Proof.
  destruct (le_lt_dec (length df) 1) as [H|H].
  - exists st. now apply buffer_step_short.
  - destruct (exists_last (l := df)) as [d1 [r ->]]; [intros ->; simpl in H; lia|].
    destruct (exists_last (l := d1)) as [pre [rp ->]].
    { intros ->; simpl in H; lia. }
    rewrite <- app_assoc. simpl. rewrite buffer_step_snoc2. eauto.
Qed.
End BufferStep.

(** ** What each statement group of [next] touches *)

Lemma split_two_rows (data : DataFrame) (j : nat) :
  (S j < length data)%nat ->
  exists pre rp r post, data = pre ++ rp :: r :: post /\ length pre = j.
Proof.
  intros H.
  pose proof (firstn_skipn j data) as Hs.
  assert (Hl : length (skipn j data) = (length data - j)%nat) by apply length_skipn.
  destruct (skipn j data) as [|rp [|r post]] eqn:Hk; simpl in Hl; try lia.
  exists (firstn j data), rp, r, post. split; [now symmetry|].
  rewrite length_firstn. lia.
Qed.

Section Steps.
Variable E : Estimators.
Variable cfg : Config.

Lemma next_inv (df : DataFrame) (st st' : Strategy) :
  next E cfg df st = Ok st' ->
  exists st1 st2 st3,
    buffer_step cfg df st = Ok st1 /\ trade_step cfg df st1 = Ok st2 /\
    retrain_step E cfg st2 = Ok st3 /\ reweight_step cfg df st3 = Ok st'.
Proof.
  unfold next. intros H. repeat inv_ok. eauto 8.
Qed.

Lemma decide_frame (z : fl) (st : Strategy) :
  models (decide cfg z st) = models st /\
  weights (decide cfg z st) = weights st /\
  retrain_c (decide cfg z st) = retrain_c st /\
  X_buf (decide cfg z st) = X_buf st /\
  y_buf (decide cfg z st) = y_buf st.
Proof.
  unfold decide.
  destruct (fgt z (trade_threshold cfg) && negb (is_long (position st)));
    [|destruct (flt z (fneg (trade_threshold cfg)) && negb (is_short (position st)))];
    simpl; auto.
Qed.

Lemma trade_step_frame (df : DataFrame) (st st' : Strategy) :
  trade_step cfg df st = Ok st' ->
  models st' = models st /\ weights st' = weights st /\
  retrain_c st' = retrain_c st /\
  X_buf st' = X_buf st /\ y_buf st' = y_buf st.
Proof.
  unfold trade_step. intros H. repeat inv_ok. apply decide_frame.
Qed.

Lemma retrain_step_frame (st st' : Strategy) :
  retrain_step E cfg st = Ok st' ->
  weights st' = weights st /\ trade_c st' = trade_c st /\
  retrain_c st' = retrain_c st + 1 /\
  X_buf st' = X_buf st /\ y_buf st' = y_buf st /\
  position st' = position st.
Proof.
  unfold retrain_step. intros H.
  destruct (retrain_every cfg =? 0); [discriminate|].
  destruct (retrain_due cfg _); inv_ok; simpl; auto 7.
Qed.

Lemma reweight_step_frame (df : DataFrame) (st st' : Strategy) :
  reweight_step cfg df st = Ok st' ->
  models st' = models st /\ retrain_c st' = retrain_c st /\
  X_buf st' = X_buf st /\ y_buf st' = y_buf st /\
  position st' = position st.
Proof.
  unfold reweight_step, _update_weights. intros H.
  destruct (reweight_due cfg st); repeat inv_ok; simpl; auto 7.
Qed.

(** Only the buffering step writes to the two deques. *)
Lemma next_bufs (df : DataFrame) (st st' : Strategy) :
  next E cfg df st = Ok st' ->
  exists st1, buffer_step cfg df st = Ok st1 /\
              X_buf st' = X_buf st1 /\ y_buf st' = y_buf st1.
Proof.
  intros H. apply next_inv in H. destruct H as (st1 & st2 & st3 & H1 & H2 & H3 & H4).
  exists st1. split; [assumption|].
  apply trade_step_frame in H2. apply retrain_step_frame in H3.
  apply reweight_step_frame in H4.
  intuition congruence.
Qed.

Lemma bar_sample_first (data : DataFrame) :
  bar_sample cfg data 0 = [].
Proof.
  unfold bar_sample, returns, pct_change. destruct data as [|r data]; simpl.
  - reflexivity.
  - destruct (r "Close"%string); reflexivity.
Qed.

Lemma bar_sample_snoc2 (pre post : DataFrame) (rp r : Row) :
  bar_sample cfg (pre ++ rp :: r :: post) (S (length pre)) =
  if isnan (label_of rp r) then []
  else [(map rp (feat_cols cfg), label_of rp r)].
Proof.
  unfold bar_sample.
  assert (Hl : nth (S (length pre)) (returns (pre ++ rp :: r :: post)) NaN
               = label_of rp r).
  { rewrite <- (firstn_skipn (S (S (length pre))) (returns _)).
    rewrite <- returns_firstn.
    replace (firstn (S (S (length pre))) (pre ++ rp :: r :: post))
      with (pre ++ [rp; r]).
    2:{ rewrite firstn_app, firstn_all2 by lia.
        replace (S (S (length pre)) - length pre)%nat with 2%nat by lia.
        reflexivity. }
    rewrite returns_snoc2, <- app_assoc.
    replace (S (length pre)) with (length (returns (pre ++ [rp]))).
    2:{ rewrite returns_length, length_app. simpl. lia. }
    apply nth_middle. }
  rewrite Hl. simpl. rewrite Nat.sub_0_r, nth_middle. reflexivity.
Qed.

(** What the buffering step of bar [i] does to the deques. *)
Lemma buffer_step_bar (data : DataFrame) (i : nat) (st st1 : Strategy) :
  (i < length data)%nat ->
  buffer_step cfg (firstn (S i) data) st = Ok st1 ->
  X_buf st1 = push_all (window_len cfg) (X_buf st) (map fst (bar_sample cfg data i)) /\
  y_buf st1 = push_all (window_len cfg) (y_buf st) (map snd (bar_sample cfg data i)).
Proof.
  intros Hi H. destruct i as [|j].
  - rewrite buffer_step_short in H.
    2:{ rewrite length_firstn. lia. }
    inv_ok. rewrite bar_sample_first. auto.
  - destruct (split_two_rows data j Hi) as (pre & rp & r & post & -> & <-).
    replace (firstn (S (S (length pre))) (pre ++ rp :: r :: post))
      with (pre ++ [rp; r]) in H.
    2:{ rewrite firstn_app, firstn_all2 by lia.
        replace (S (S (length pre)) - length pre)%nat with 2%nat by lia.
        reflexivity. }
    rewrite buffer_step_snoc2 in H. inv_ok.
    rewrite bar_sample_snoc2.
    destruct (isnan (label_of rp r)); simpl; auto.
Qed.

(** The deques after a run: everything that was pushed, in order, cut
    to the capacity. *)
Lemma run_bars_bufs (data : DataFrame) (n i : nat) (st st' : Strategy) :
  (i + n <= length data)%nat ->
  run_bars E cfg data i n st = Ok st' ->
  X_buf st' = push_all (window_len cfg) (X_buf st) (map fst (pushed cfg data i n)) /\
  y_buf st' = push_all (window_len cfg) (y_buf st) (map snd (pushed cfg data i n)).
Proof.
  revert i st. induction n as [|n IH]; intros i st Hlen H; simpl in H.
  - inv_ok. auto.
  - inv_ok. rename st0 into sta.
    destruct (next_bufs _ _ _ Hstep) as (st1 & Hb & HX & Hy).
    apply buffer_step_bar in Hb; [|lia]. destruct Hb as [HX1 Hy1].
    apply IH in H; [|lia]. destruct H as [HX' Hy'].
    unfold pushed in *. simpl. rewrite !map_app, !push_all_app.
    rewrite HX', Hy', HX, Hy, HX1, Hy1. auto.
Qed.
End Steps.

(** ** Buffer invariants *)

Lemma combine_fst_snd {A B : Type} (l : list (A * B)) :
  combine (map fst l) (map snd l) = l.
Proof. induction l as [|[a b] l IH]; simpl; congruence. Qed.

Lemma deque_append_length {A : Type} (W : nat) (d : list A) (x : A) :
  length (deque_append W d x) = Nat.min W (S (length d)).
Proof.
  unfold deque_append. rewrite lastn_length, length_app. simpl.
  rewrite Nat.add_1_r. reflexivity.
Qed.

Lemma buffer_step_cases (cfg : Config) (df : DataFrame) (st st1 : Strategy) :
  buffer_step cfg df st = Ok st1 ->
  st1 = st \/
  exists x y, st1 = set_bufs st (deque_append (window_len cfg) (X_buf st) x)
                              (deque_append (window_len cfg) (y_buf st) y).
Proof.
  intros H. destruct (le_lt_dec (length df) 1) as [Hl|Hl].
  - rewrite buffer_step_short in H by assumption. inv_ok. auto.
  - destruct (exists_last (l := df)) as [d1 [r ->]]; [intros ->; simpl in Hl; lia|].
    destruct (exists_last (l := d1)) as [pre [rp ->]].
    { intros ->; simpl in Hl; lia. }
    rewrite <- app_assoc in H. simpl in H. rewrite buffer_step_snoc2 in H.
    inv_ok. destruct (isnan (label_of rp r)); eauto.
Qed.

Lemma buffer_step_equal_length (cfg : Config) (df : DataFrame) (st st1 : Strategy) :
  length (X_buf st) = length (y_buf st) ->
  buffer_step cfg df st = Ok st1 ->
  length (X_buf st1) = length (y_buf st1).
Proof.
  intros Hlen H. apply buffer_step_cases in H.
  destruct H as [-> | (x & y & ->)]; [assumption|].
  simpl. rewrite !deque_append_length. congruence.
Qed.

Lemma next_equal_length (E : Estimators) (cfg : Config) (df : DataFrame)
      (st st' : Strategy) :
  length (X_buf st) = length (y_buf st) ->
  next E cfg df st = Ok st' ->
  length (X_buf st') = length (y_buf st').
Proof.
  intros Hlen H. destruct (next_bufs _ _ _ _ _ H) as (st1 & Hb & -> & ->).
  eapply buffer_step_equal_length; eassumption.
Qed.

Lemma run_bars_equal_length (E : Estimators) (cfg : Config) (data : DataFrame)
      (n i : nat) (st st' : Strategy) :
  length (X_buf st) = length (y_buf st) ->
  run_bars E cfg data i n st = Ok st' ->
  length (X_buf st') = length (y_buf st').
Proof.
  revert i st. induction n as [|n IH]; intros i st Hlen H; simpl in H.
  - inv_ok. assumption.
  - inv_ok. eapply IH; [|eassumption].
    eapply next_equal_length; eassumption.
Qed.

Lemma retrain_step_fires (E : Estimators) (cfg : Config) (st : Strategy) :
  retrain_every cfg <> 0 ->
  retrain_due cfg (set_retrain_c st (retrain_c st + 1)) = true ->
  retrain_step E cfg st =
  Ok (set_models (set_retrain_c st (retrain_c st + 1))
                 (fit_models_on_gpu E (X_buf st) (y_buf st))).
Proof.
  intros Hne Hdue. unfold retrain_step.
  destruct (Z.eqb_spec (retrain_every cfg) 0); [contradiction|].
  rewrite Hdue. reflexivity.
Qed.

(** C10: after every bar of a run the feature deque and the label deque
    have the same length, and a retrain on the following bar fits the
    models on a batch with as many feature rows as labels. *)
Theorem buffers_equal_length :
  forall (E : Estimators) (cfg : Config) (data : DataFrame) (i n : nat)
         (st : Strategy),
    run_bars E cfg data i n (init cfg) = Ok st ->
    length (X_buf st) = length (y_buf st) /\
    forall (df : DataFrame) (st1 st2 : Strategy),
      buffer_step cfg df st = Ok st1 ->
      trade_step cfg df st1 = Ok st2 ->
      length (X_buf st2) = length (y_buf st2) /\
      (retrain_every cfg <> 0 ->
       retrain_due cfg (set_retrain_c st2 (retrain_c st2 + 1)) = true ->
       retrain_step E cfg st2 =
       Ok (set_models (set_retrain_c st2 (retrain_c st2 + 1))
                      (fit_models_on_gpu E (X_buf st2) (y_buf st2)))).
Proof.
  intros E cfg data i n st Hrun.
  assert (Hst : length (X_buf st) = length (y_buf st)).
  { eapply run_bars_equal_length; [|eassumption]. reflexivity. }
  split; [assumption|].
  intros df st1 st2 Hb Ht. split.
  - apply trade_step_frame in Ht. destruct Ht as (_ & _ & _ & -> & ->).
    eapply buffer_step_equal_length; eassumption.
  - apply retrain_step_fires.
Qed.

(** C6: the deque never holds more than its capacity and always holds
    the most recent of the elements pushed; the two deques of a run hold,
    feature vector by label, the most recent of the samples the bars
    produced; with capacity 5, eight pushes labelled 1 to 8 leave those
    labelled 4, 5, 6, 7, 8 in that order, on the deque alone and in a run
    of eight bars whose returns are 1 to 8. *)
Theorem rolling_buffer_is_suffix :
  (forall (A : Type) (C : nat) (xs : list A),
      (length (push_all C [] xs) <= C)%nat /\ suffix_of (push_all C [] xs) xs) /\
  (forall (E : Estimators) (cfg : Config) (data : DataFrame) (i n : nat)
          (st : Strategy),
      (i + n <= length data)%nat ->
      run_bars E cfg data i n (init cfg) = Ok st ->
      (length (X_buf st) <= window_len cfg)%nat /\
      (length (y_buf st) <= window_len cfg)%nat /\
      suffix_of (samples st) (pushed cfg data i n)) /\
  push_all 5 [] [1; 2; 3; 4; 5; 6; 7; 8] = [4; 5; 6; 7; 8] /\
  (exists st : Strategy,
      run Scenario.estimators Scenario.evict_cfg Scenario.evict_data = Ok st /\
      Forall2 (fun s k => feq (snd s) (of_int k)) (samples st) [4; 5; 6; 7; 8]).
Proof.
  split; [|split; [|split]].
  - intros A C xs. rewrite push_all_empty. split.
    + rewrite lastn_length. lia.
    + apply lastn_suffix.
  - intros E cfg data i n st Hlen Hrun.
    destruct (run_bars_bufs E cfg data n i _ _ Hlen Hrun) as [HX Hy].
    change (X_buf (init cfg)) with (@nil (list fl)) in HX.
    change (y_buf (init cfg)) with (@nil fl) in Hy.
    rewrite push_all_empty in HX. rewrite push_all_empty in Hy.
    split; [|split].
    + rewrite HX, lastn_length. lia.
    + rewrite Hy, lastn_length. lia.
    + unfold samples. rewrite HX, Hy, lastn_combine, combine_fst_snd.
      * apply lastn_suffix.
      * now rewrite !length_map.
  - reflexivity.
  - eexists. split; [vm_compute; reflexivity|].
    repeat (constructor; [reflexivity|]). constructor.
Qed.

(** ** The order of the statement groups within a bar *)


(** C9: on a bar where the retrain and the reweight are both due, [next]
    first installs the models fitted on the current deques and then
    computes the weights from those models; the models held before the bar
    do not enter the result. *)
Theorem retrain_precedes_reweight :
  forall (E : Estimators) (cfg : Config) (df : DataFrame)
         (st st1 st2 : Strategy),
    buffer_step cfg df st = Ok st1 ->
    trade_step cfg df st1 = Ok st2 ->
    retrain_every cfg <> 0 ->
    retrain_due cfg (set_retrain_c st2 (retrain_c st2 + 1)) = true ->
    reweight_due cfg st2 = true ->
    next E cfg df st =
      (ws <- reweighted df (fit_models_on_gpu E (X_buf st2) (y_buf st2))
                        (X_buf st2) (weights st2) ;;
       Ok {| models := fit_models_on_gpu E (X_buf st2) (y_buf st2);
             weights := ws;
             retrain_c := retrain_c st2 + 1;
             trade_c := 0;
             X_buf := X_buf st2;
             y_buf := y_buf st2;
             position := position st2 |}).
Proof.
  intros E cfg df st st1 st2 Hb Ht Hne Hre Hrw.
  unfold next. rewrite Hb. simpl. rewrite Ht. simpl.
  rewrite retrain_step_fires by assumption. simpl.
  unfold reweight_step.
  replace (reweight_due cfg _) with true by (symmetry; exact Hrw).
  unfold _update_weights. simpl.
  destruct (reweighted _ _ _ _); reflexivity.
Qed.

(** ** Retraining: what it replaces and what it keeps *)

Lemma retrain_step_models (E : Estimators) (cfg : Config) (st st' : Strategy) :
  retrain_step E cfg st = Ok st' ->
  (retrain_due cfg st' = true ->
   models st' = fit_models_on_gpu E (X_buf st') (y_buf st') /\
   retrain_c st' mod retrain_every cfg = 0) /\
  (retrain_due cfg st' = false -> models st' = models st).
Proof.
  unfold retrain_step. intros H.
  destruct (retrain_every cfg =? 0); [discriminate|].
  destruct (retrain_due cfg (set_retrain_c st (retrain_c st + 1))) eqn:Hdue;
    inv_ok; unfold retrain_due in *; simpl in *; rewrite Hdue.
  - split; [|discriminate]. intros _. split; [reflexivity|].
    apply andb_prop in Hdue. destruct Hdue as [Hm _].
    now apply Z.eqb_eq in Hm.
  - split; [discriminate|reflexivity].
Qed.

Lemma retrain_due_frame (cfg : Config) (st st' : Strategy) :
  retrain_c st' = retrain_c st -> X_buf st' = X_buf st ->
  retrain_due cfg st' = retrain_due cfg st.
Proof. unfold retrain_due. intros -> ->. reflexivity. Qed.

Lemma next_retrain (E : Estimators) (cfg : Config) (df : DataFrame)
      (st st' : Strategy) :
  next E cfg df st = Ok st' ->
  retrain_c st' = retrain_c st + 1 /\
  (retrain_due cfg st' = true ->
   models st' = fit_models_on_gpu E (X_buf st') (y_buf st') /\
   retrain_c st' mod retrain_every cfg = 0) /\
  (retrain_due cfg st' = false -> models st' = models st).
Proof.
  intros H. apply next_inv in H.
  destruct H as (st1 & st2 & st3 & H1 & H2 & H3 & H4).
  pose proof (retrain_step_models _ _ _ _ H3) as [Hfire Hskip].
  apply buffer_step_cases in H1.
  apply trade_step_frame in H2. destruct H2 as (Hm2 & _ & Hc2 & HX2 & Hy2).
  apply retrain_step_frame in H3. destruct H3 as (_ & _ & Hc3 & HX3 & Hy3 & _).
  apply reweight_step_frame in H4. destruct H4 as (Hm4 & Hc4 & HX4 & Hy4 & _).
  rewrite (retrain_due_frame cfg st3 st') by congruence.
  rewrite Hm4, Hc4, HX4, Hy4.
  assert (Hc1 : retrain_c st1 = retrain_c st /\ models st1 = models st).
  { destruct H1 as [-> | (x & y & ->)]; auto. }
  destruct Hc1 as [Hc1 Hm1].
  split; [congruence|]. split; [assumption|].
  intros Hd. rewrite (Hskip Hd). congruence.
Qed.

Lemma run_bars_retrain_c (E : Estimators) (cfg : Config) (data : DataFrame)
      (n i : nat) (st st' : Strategy) :
  run_bars E cfg data i n st = Ok st' ->
  retrain_c st' = retrain_c st + Z.of_nat n.
Proof.
  revert i st. induction n as [|n IH]; intros i st H; simpl in H.
  - inv_ok. lia.
  - inv_ok. apply IH in H. apply next_retrain in Hstep.
    destruct Hstep as [Hc _]. lia.
Qed.

(** C4, as the code has it: [retrain_c] counts the bars of the run and is
    never set back; on a bar whose retrain executes, the models are
    replaced and the counter stands at a multiple of [retrain_every], one
    more than the number of bars before it. *)
Theorem retrain_counter_counts_bars :
  forall (E : Estimators) (cfg : Config) (data : DataFrame) (i n : nat)
         (st : Strategy),
    run_bars E cfg data i n (init cfg) = Ok st ->
    retrain_c st = Z.of_nat n /\
    forall (df : DataFrame) (st' : Strategy),
      next E cfg df st = Ok st' ->
      retrain_c st' = Z.of_nat n + 1 /\
      (retrain_due cfg st' = true ->
       models st' = fit_models_on_gpu E (X_buf st') (y_buf st') /\
       retrain_c st' mod retrain_every cfg = 0 /\
       retrain_c st' <> 0).
Proof.
  intros E cfg data i n st Hrun.
  apply run_bars_retrain_c in Hrun. simpl in Hrun.
  split; [assumption|].
  intros df st' H. apply next_retrain in H. destruct H as (Hc & Hfire & _).
  split; [lia|]. intros Hd. destruct (Hfire Hd) as [Hm Hmod].
  repeat split; try assumption. lia.
Qed.

Lemma init_uniform (cfg : Config) : uniform (weights (init cfg)).
Proof.
  unfold uniform, init. simpl. intros k w Hin.
  rewrite length_map.
  apply in_map_iff in Hin. destruct Hin as ([k' m] & Heq & Hin).
  injection Heq as _ <-.
  destruct (base_models cfg) as [|km l]; [contradiction|].
  unfold fdiv, of_len, of_int, Qzero.
  destruct (Qeq_bool _ 0) eqn:Hz.
  - apply Qeq_bool_eq in Hz. unfold Qeq in Hz. simpl in Hz. lia.
  - eexists. split; reflexivity.
Qed.

(** C1, as the code has it: a retrain replaces the models and nothing
    else, so the weights held before it are the weights held after it; a
    bar without a weight refresh ends with the weights it started with,
    retrain or not; uniform weights are what [init] installs. *)
Theorem retrain_keeps_weights :
  forall (E : Estimators) (cfg : Config),
    uniform (weights (init cfg)) /\
    (forall st st3 : Strategy,
        retrain_step E cfg st = Ok st3 -> weights st3 = weights st) /\
    (forall (df : DataFrame) (st st1 st2 st' : Strategy),
        buffer_step cfg df st = Ok st1 ->
        trade_step cfg df st1 = Ok st2 ->
        reweight_due cfg st2 = false ->
        next E cfg df st = Ok st' ->
        weights st' = weights st /\
        (retrain_due cfg st' = true ->
         models st' = fit_models_on_gpu E (X_buf st') (y_buf st'))).
Proof.
  intros E cfg. split; [apply init_uniform|]. split.
  - intros st st3 H. apply retrain_step_frame in H. tauto.
  - intros df st st1 st2 st' Hb Ht Hrw H.
    pose proof (next_retrain _ _ _ _ _ H) as (_ & Hfire & _).
    split; [|intros Hd; apply (Hfire Hd)].
    unfold next in H. rewrite Hb in H. simpl in H. rewrite Ht in H. simpl in H.
    inv_ok. rename st0 into st3.
    unfold reweight_step in H.
    pose proof (retrain_step_frame _ _ _ _ Hstep) as (Hw3 & Htc3 & _).
    replace (reweight_due cfg st3) with false in H.
    2:{ unfold reweight_due in *. now rewrite Htc3. }
    inv_ok. rewrite Hw3.
    apply buffer_step_cases in Hb. apply trade_step_frame in Ht.
    destruct Ht as (_ & -> & _).
    destruct Hb as [-> | (x & y & ->)]; reflexivity.
Qed.

(** ** Prediction on an empty registry *)

Lemma iloc_m1_nonempty (s : list fl) :
  s <> [] -> exists x, iloc_m1 s = Ok x.
Proof.
  intros H. destruct (exists_last H) as [s' [x ->]].
  exists x. apply iloc_m1_snoc.
Qed.

Lemma last_features (cfg : Config) (df : DataFrame) :
  df <> [] ->
  exists feats,
    mapM (fun col => iloc_m1 (column df col)) (feat_cols cfg) = Ok feats.
Proof.
  intros H. induction (feat_cols cfg) as [|c cs IH]; simpl.
  - eauto.
  - destruct (iloc_m1_nonempty (column df c)) as [x ->].
    { unfold column. destruct df; [contradiction|discriminate]. }
    destruct IH as [fs ->]. simpl. eauto.
Qed.



(** ** Arithmetic on finite values *)













(** ** The inverse-error rule *)















Lemma recent_rets_length (df : DataFrame) :
  length (recent_rets df) = Nat.min 60 (length df).
Proof.
  unfold recent_rets. rewrite lastn_length. fold (returns df).
  now rewrite returns_length.
Qed.



(** ** The labels of the window and the trailing returns *)

Lemma firstn_add_split {A : Type} (a b : nat) (l : list A) :
  firstn (a + b) l = firstn a l ++ firstn b (skipn a l).
Proof.
  revert l. induction a as [|a IH]; intros [|x l]; simpl; auto.
  - now rewrite firstn_nil.
  - now rewrite IH.
Qed.

Lemma map_nth_seq {A : Type} (d : A) (l : list A) (n i : nat) :
  (i + n <= length l)%nat ->
  map (fun j => nth j l d) (seq i n) = firstn n (skipn i l).
Proof.
  revert i. induction n as [|n IH]; intros i H; simpl.
  - reflexivity.
  - rewrite IH by lia.
    assert (Hs : skipn i l = nth i l d :: skipn (S i) l).
    { clear IH. revert i H. induction l as [|x l IHl]; intros i H; simpl in H; [lia|].
      destruct i as [|i]; [reflexivity|]. simpl. apply IHl. lia. }
    rewrite Hs. reflexivity.
Qed.

Lemma filter_all {A : Type} (f : A -> bool) (l : list A) :
  forallb f l = true -> filter f l = l.
Proof.
  induction l as [|x l IH]; simpl; intros H; [reflexivity|].
  apply andb_prop in H. destruct H as [-> Hl]. now rewrite IH.
Qed.

Lemma pushed_labels (cfg : Config) (data : DataFrame) (i n : nat) :
  map snd (pushed cfg data i n)
  = filter defined (map (fun j => nth j (returns data) NaN) (seq i n)).
Proof.
  unfold pushed. induction (seq i n) as [|j js IH]; simpl; [reflexivity|].
  rewrite map_app, IH. unfold bar_sample, defined.
  destruct (isnan (nth j (returns data) NaN)); reflexivity.
Qed.

Lemma pushed_succ (cfg : Config) (data : DataFrame) (i n : nat) :
  pushed cfg data i (S n) = pushed cfg data i n ++ bar_sample cfg data (i + n).
Proof.
  unfold pushed. rewrite seq_S, flat_map_app. simpl. now rewrite app_nil_r.
Qed.

Lemma abs_diffs_combine (m : Model) (X : list (list fl)) (r : list fl) :
  map fabs (zip_sub (predict_batch m X) r)
  = map (fun s => fabs (fsub (predict m (fst s)) (snd s))) (combine X r).
Proof.
  revert r. induction X as [|x X IH]; intros [|y r]; simpl; auto.
  now rewrite <- IH.
Qed.

(** The labels at the right end of a long enough deque are the trailing
    returns, when these are all defined. *)
Lemma window_labels_are_returns (W : nat) (R0 Qs : list fl) :
  (60 <= length (lastn W (filter defined Qs)))%nat ->
  forallb defined (lastn 60 (R0 ++ Qs)) = true ->
  lastn 60 (lastn W (filter defined Qs)) = lastn 60 (R0 ++ Qs).
Proof.
  intros Hlen Hdef.
  rewrite lastn_length in Hlen.
  assert (HQ : (60 <= length Qs)%nat).
  { pose proof (filter_length_le defined Qs). lia. }
  rewrite lastn_lastn by lia.
  rewrite lastn_app_long in * by assumption.
  destruct (lastn_suffix 60 Qs) as [Q1 HQ1].
  rewrite HQ1 at 1. rewrite filter_app, (filter_all _ _ Hdef).
  rewrite lastn_app_long by (rewrite lastn_length; lia).
  apply lastn_all. rewrite lastn_length. lia.
Qed.

(** C2, as the code has it: at every reweight of a run, when the 60
    trailing returns of the data frame are all defined and the deque
    holds a full window, the error [_update_weights] computes for a model
    is the mean absolute difference between its predictions on the last 60
    buffered feature vectors and the labels buffered with them. *)
Theorem trailing_mae_uses_buffered_labels :
  forall (E : Estimators) (cfg : Config) (data : DataFrame) (i n : nat)
         (st st1 st2 st3 : Strategy),
    (i + n < length data)%nat ->
    run_bars E cfg data i n (init cfg) = Ok st ->
    buffer_step cfg (firstn (S (i + n)) data) st = Ok st1 ->
    trade_step cfg (firstn (S (i + n)) data) st1 = Ok st2 ->
    retrain_step E cfg st2 = Ok st3 ->
    (60 <= length (X_buf st3))%nat ->
    forallb defined (recent_rets (firstn (S (i + n)) data)) = true ->
    forall m : Model,
      trailing_mae (recent_rets (firstn (S (i + n)) data))
                   (lastn 60 (X_buf st3)) m
      = Ok (mae_buffered m (lastn 60 (samples st3))).
Proof.
  intros E cfg data i n st st1 st2 st3 Hin Hrun Hb Ht Hre HX Hdef m.
  apply trade_step_frame in Ht. destruct Ht as (_ & _ & _ & HX2 & Hy2).
  apply retrain_step_frame in Hre. destruct Hre as (_ & _ & _ & HX3 & Hy3 & _).
  assert (HXe : X_buf st3 = X_buf st1) by congruence.
  assert (Hye : y_buf st3 = y_buf st1) by congruence.
  unfold samples. rewrite HXe, Hye in *. clear HX2 Hy2 HX3 Hy3 HXe Hye st2 st3.
  destruct (run_bars_bufs E cfg data n i _ _ (Nat.lt_le_incl _ _ Hin) Hrun) as [HXs Hys].
  destruct (buffer_step_bar cfg data (i + n) st st1 Hin Hb) as [HX1 Hy1].
  rewrite HXs in HX1. rewrite Hys in Hy1.
  rewrite <- push_all_app, <- map_app, <- pushed_succ in HX1.
  rewrite <- push_all_app, <- map_app, <- pushed_succ in Hy1.
  change (X_buf (init cfg)) with (@nil (list fl)) in HX1.
  change (y_buf (init cfg)) with (@nil fl) in Hy1.
  rewrite push_all_empty in HX1. rewrite push_all_empty in Hy1.
  assert (Hlen : length (X_buf st1) = length (y_buf st1)).
  { rewrite HX1, Hy1, !lastn_length, !length_map. reflexivity. }
  set (df := firstn (S (i + n)) data) in *.
  assert (Hlab : lastn 60 (y_buf st1) = recent_rets df).
  { unfold recent_rets. fold (returns df). unfold df.
    rewrite returns_firstn.
    replace (S (i + n)) with (i + S n)%nat by lia.
    rewrite firstn_add_split.
    rewrite Hy1, pushed_labels, (map_nth_seq NaN).
    2:{ rewrite returns_length. lia. }
    apply window_labels_are_returns.
    - rewrite <- (map_nth_seq NaN) by (rewrite returns_length; lia).
      rewrite <- (pushed_labels cfg), <- Hy1, <- Hlen. assumption.
    - unfold recent_rets in Hdef. fold (returns df) in Hdef. unfold df in Hdef.
      rewrite returns_firstn in Hdef.
      replace (S (i + n)) with (i + S n)%nat in Hdef by lia.
      now rewrite firstn_add_split in Hdef. }
  rewrite <- lastn_combine by assumption. rewrite Hlab.
  unfold trailing_mae, np_sub, mae_buffered.
  unfold predict_batch at 1. rewrite length_map, lastn_length, recent_rets_length.
  assert (Hdf : (60 <= length df)%nat).
  { assert (H60 : length (lastn 60 (y_buf st1)) = 60%nat) by (rewrite lastn_length; lia).
    rewrite Hlab, recent_rets_length in H60. lia. }
  replace (Nat.min 60 (length (X_buf st1))) with 60%nat by lia.
  replace (Nat.min 60 (length df)) with 60%nat by lia.
  simpl. rewrite abs_diffs_combine. reflexivity.
Qed.

(** ** Scenarios *)

(** C7: from [Flat], with threshold 0 and two models at weight 1/2, the
    predictions 0.1, -0.2, 0.05, 0.3, -0.1 lead through Long, Short, Long,
    Long (no change), Short, and four trades are counted; the five bars of
    the cold start produce these predictions and go through the same
    positions and counts. *)
Theorem cold_start_four_trades :
  position (init Scenario.cold_cfg) = Flat /\
  map position
      (decide_all Scenario.cold_cfg Scenario.cold_predictions
                  (init Scenario.cold_cfg))
  = [Long; Short; Long; Long; Short] /\
  map trade_c
      (decide_all Scenario.cold_cfg Scenario.cold_predictions
                  (init Scenario.cold_cfg))
  = [1; 2; 3; 3; 4] /\
  weights (init Scenario.cold_cfg)
  = [("a"%string, Fin (1 # 2)); ("b"%string, Fin (1 # 2))] /\
  exists tr : list Strategy,
    run_trace Scenario.estimators Scenario.cold_cfg Scenario.cold_data 1 5
              (init Scenario.cold_cfg) = Ok tr /\
    Forall2 (fun jst z =>
               exists z', _pred Scenario.cold_cfg
                                (firstn (S (fst jst)) Scenario.cold_data)
                                (snd jst) = Ok z' /\ feq z' z)
            (combine (seq 1 5) (init Scenario.cold_cfg :: tr))
            Scenario.cold_predictions /\
    map position tr = [Long; Short; Long; Long; Short] /\
    map trade_c tr = [1; 2; 3; 3; 4].
Proof.
  split; [reflexivity|]. split; [reflexivity|]. split; [reflexivity|].
  split; [reflexivity|].
  eexists. split; [vm_compute; reflexivity|].
  split; [|split; reflexivity].
  repeat (constructor; [eexists; split; [vm_compute; reflexivity | reflexivity]|]).
  constructor.
Qed.

Lemma uniformb_complete (ws : list (string * fl)) :
  uniform ws -> uniformb ws = true.
Proof.
  intros H. unfold uniformb. apply forallb_forall. intros [k w] Hin.
  destruct (H k w Hin) as (q & -> & Hq). simpl.
  now apply Qeq_bool_iff.
Qed.

Lemma retrain_report_sound (cfg : Config) (r : result (Strategy * Strategy))
      (due unif : bool) (c c' : Z) :
  retrain_report cfg r = Some (due, unif, c, c') ->
  exists before after : Strategy,
    r = Ok (before, after) /\
    retrain_due cfg after = due /\ uniformb (weights after) = unif /\
    retrain_c before = c /\ retrain_c after = c'.
Proof.
  destruct r as [[before after]|e]; simpl; intros H; [|discriminate H].
  injection H as H1 H2 H3 H4. exists before, after. auto 6.
Qed.

Lemma bar_states_inv (E : Estimators) (cfg : Config) (data : DataFrame) (n : nat)
      (before after : Strategy) :
  bar_states E cfg data n = Ok (before, after) ->
  run_bars E cfg data 1 n (init cfg) = Ok before /\
  next E cfg (firstn (S (S n)) data) before = Ok after.
Proof.
  unfold bar_states. intros H.
  destruct (run_bars E cfg data 1 n (init cfg)) as [b|e]; [|discriminate H].
  cbn [bind] in H.
  destruct (next E cfg (firstn (S (S n)) data) b) as [a|e] eqn:Hn; [|discriminate H].
  cbn [bind] in H. injection H as -> ->. auto.
Qed.

Lemma retrain_report_value :
  retrain_report Scenario.long_cfg
    (bar_states Scenario.estimators Scenario.long_cfg Scenario.long_data 500)
  = Some (true, false, 500, 501).
Proof. vm_cast_no_check (eq_refl (Some (true, false, 500, 501))). Qed.

(** Bar 501 of the long run: the retrain executes, the weights after it
    are not uniform, and the counter moves from 500 to 501. *)
Lemma long_run_retrain_bar :
  exists before after : Strategy,
    run_bars Scenario.estimators Scenario.long_cfg Scenario.long_data 1 500
             (init Scenario.long_cfg) = Ok before /\
    next Scenario.estimators Scenario.long_cfg
         (firstn 502 Scenario.long_data) before = Ok after /\
    retrain_due Scenario.long_cfg after = true /\
    uniformb (weights after) = false /\
    retrain_c before = 500 /\ retrain_c after = 501.
Proof.
  destruct (retrain_report_sound _ _ _ _ _ _ retrain_report_value)
    as (before & after & Hr & H1 & H2 & H3 & H4).
  destruct (bar_states_inv _ _ _ _ _ _ Hr) as [Hrun Hnext].
  exists before, after.
  exact (conj Hrun (conj Hnext (conj H1 (conj H2 (conj H3 H4))))).
Qed.

(** C1 fails on the code: bar 501 of the long run retrains the models, and
    the weights after it are the skewed ones of the reweight at bar 61. *)
Lemma retrain_leaves_skewed_weights :
  exists before after : Strategy,
    run_bars Scenario.estimators Scenario.long_cfg Scenario.long_data 1 500
             (init Scenario.long_cfg) = Ok before /\
    next Scenario.estimators Scenario.long_cfg
         (firstn 502 Scenario.long_data) before = Ok after /\
    retrain_due Scenario.long_cfg after = true /\
    models after
    = fit_models_on_gpu Scenario.estimators (X_buf after) (y_buf after) /\
    ~ uniform (weights after).
Proof.
  destruct long_run_retrain_bar as (before & after & Hrun & Hnext & Hdue & Hu & _).
  exists before, after.
  split; [exact Hrun|]. split; [exact Hnext|]. split; [exact Hdue|].
  split.
  - destruct (next_retrain _ _ _ _ _ Hnext) as (_ & Hfire & _).
    exact (proj1 (Hfire Hdue)).
  - intros Hun. apply uniformb_complete in Hun.
    rewrite Hun in Hu. discriminate Hu.
Qed.

(** C4 fails on the code: after the retrain of bar 501 the counter is 501. *)
Lemma retrain_counter_not_reset :
  exists before after : Strategy,
    run_bars Scenario.estimators Scenario.long_cfg Scenario.long_data 1 500
             (init Scenario.long_cfg) = Ok before /\
    next Scenario.estimators Scenario.long_cfg
         (firstn 502 Scenario.long_data) before = Ok after /\
    retrain_due Scenario.long_cfg after = true /\
    models after
    = fit_models_on_gpu Scenario.estimators (X_buf after) (y_buf after) /\
    retrain_c before = 500 /\
    retrain_c after = 501.
Proof.
  destruct long_run_retrain_bar as (before & after & Hrun & Hnext & Hdue & _ & Hb & Ha).
  exists before, after.
  split; [exact Hrun|]. split; [exact Hnext|]. split; [exact Hdue|].
  split; [|exact (conj Hb Ha)].
  destruct (next_retrain _ _ _ _ _ Hnext) as (_ & Hfire & _).
  exact (proj1 (Hfire Hdue)).
Qed.


(** C2 fails on the code: with no close at bar 61, the reweight of that
    bar compares the 60 buffered feature vectors with trailing returns of
    which the last is [NaN]; the error of every model is [NaN], although
    its error against the 60 buffered labels is a number. *)
Lemma gap_breaks_label_alignment :
  exists st st1 st2 st3 : Strategy,
    run_bars Scenario.estimators Scenario.long_cfg Scenario.gap_data 1 60
             (init Scenario.long_cfg) = Ok st /\
    buffer_step Scenario.long_cfg (firstn 62 Scenario.gap_data) st = Ok st1 /\
    trade_step Scenario.long_cfg (firstn 62 Scenario.gap_data) st1 = Ok st2 /\
    retrain_step Scenario.estimators Scenario.long_cfg st2 = Ok st3 /\
    reweight_due Scenario.long_cfg st3 = true /\
    length (X_buf st3) = 60%nat /\
    Forall (fun km =>
              trailing_mae (recent_rets (firstn 62 Scenario.gap_data))
                           (lastn 60 (X_buf st3)) (snd km) = Ok NaN /\
              is_finite (mae_buffered (snd km) (lastn 60 (samples st3))) = true)
           (models st3).
Proof.
  eexists. eexists. eexists. eexists.
  split; [vm_compute; reflexivity|].
  split; [vm_compute; reflexivity|].
  split; [vm_compute; reflexivity|].
  split; [vm_compute; reflexivity|].
  split; [vm_compute; reflexivity|].
  split; [vm_compute; reflexivity|].
  repeat (constructor; [split; vm_compute; reflexivity|]). constructor.
Qed.


(** In binary64 the rule of C3 holds up to rounding only: the errors 0 and
    1e-30 differ, yet [0 + 1e-8] and [1e-30 + 1e-8] round to the same
    number and both models get the weight 1/2; and the weights for the
    errors 1, 2 and 3 add up to less than 1. *)
Lemma binary64_rounds_the_rule :
  PrimFloat.ltb PrimFloat.zero Binary64.tiny = true /\
  (exists w : PrimFloat.float,
      Binary64.inverse_error_weights64 Binary64.close_errors
      = [("a"%string, w); ("b"%string, w)]) /\
  PrimFloat.ltb
    (Binary64.fsum64
       (map snd (Binary64.inverse_error_weights64 Binary64.plain_errors)))
    PrimFloat.one = true.
Proof.
  split; [vm_compute; reflexivity|].
  split; [eexists; vm_compute; reflexivity|].
  vm_compute; reflexivity.
Qed.

(** ** Instances of the theorems *)

(** The cold start: after its five bars the two deques have equal length. *)
Lemma buffers_equal_length_witness :
  run_bars Scenario.estimators Scenario.cold_cfg Scenario.cold_data 1 5
           (init Scenario.cold_cfg) = Ok Scenario.cold_end /\
  length (X_buf Scenario.cold_end) = length (y_buf Scenario.cold_end).
Proof.
  assert (H : run_bars Scenario.estimators Scenario.cold_cfg Scenario.cold_data 1 5
                       (init Scenario.cold_cfg) = Ok Scenario.cold_end)
    by (vm_compute; reflexivity).
  split; [exact H|].
  exact (proj1 (buffers_equal_length _ _ _ _ _ _ H)).
Defined.

(** The eviction run: its deques hold the last five of the eight samples. *)
Lemma rolling_buffer_is_suffix_witness :
  (1 + 8 <= length Scenario.evict_data)%nat /\
  run_bars Scenario.estimators Scenario.evict_cfg Scenario.evict_data 1 8
           (init Scenario.evict_cfg) = Ok Scenario.evict_end /\
  (length (X_buf Scenario.evict_end) <= window_len Scenario.evict_cfg)%nat /\
  (length (y_buf Scenario.evict_end) <= window_len Scenario.evict_cfg)%nat /\
  suffix_of (samples Scenario.evict_end)
            (pushed Scenario.evict_cfg Scenario.evict_data 1 8).
Proof.
  assert (Hl : (1 + 8 <= length Scenario.evict_data)%nat) by (vm_compute; lia).
  assert (H : run_bars Scenario.estimators Scenario.evict_cfg Scenario.evict_data
                       1 8 (init Scenario.evict_cfg) = Ok Scenario.evict_end)
    by (vm_compute; reflexivity).
  split; [exact Hl|]. split; [exact H|].
  exact (proj1 (proj2 rolling_buffer_is_suffix) _ _ _ _ _ _ Hl H).
Defined.


(** A bar with 501 buffered samples on which both the retrain and the
    reweight are due. *)
Lemma retrain_precedes_reweight_witness :
  buffer_step Scenario.due_cfg Scenario.flat_data Scenario.due_state
  = Ok Scenario.due_buffered /\
  trade_step Scenario.due_cfg Scenario.flat_data Scenario.due_buffered
  = Ok Scenario.due_traded /\
  retrain_due Scenario.due_cfg
    (set_retrain_c Scenario.due_traded (retrain_c Scenario.due_traded + 1)) = true /\
  reweight_due Scenario.due_cfg Scenario.due_traded = true /\
  next Scenario.estimators Scenario.due_cfg Scenario.flat_data Scenario.due_state =
    (ws <- reweighted Scenario.flat_data
             (fit_models_on_gpu Scenario.estimators
                (X_buf Scenario.due_traded) (y_buf Scenario.due_traded))
             (X_buf Scenario.due_traded) (weights Scenario.due_traded) ;;
     Ok {| models := fit_models_on_gpu Scenario.estimators
                       (X_buf Scenario.due_traded) (y_buf Scenario.due_traded);
           weights := ws;
           retrain_c := retrain_c Scenario.due_traded + 1;
           trade_c := 0;
           X_buf := X_buf Scenario.due_traded;
           y_buf := y_buf Scenario.due_traded;
           position := position Scenario.due_traded |}).
Proof.
  assert (Hb : buffer_step Scenario.due_cfg Scenario.flat_data Scenario.due_state
               = Ok Scenario.due_buffered) by (vm_compute; reflexivity).
  assert (Ht : trade_step Scenario.due_cfg Scenario.flat_data Scenario.due_buffered
               = Ok Scenario.due_traded) by (vm_compute; reflexivity).
  assert (Hne : retrain_every Scenario.due_cfg <> 0) by (simpl; lia).
  assert (Hre : retrain_due Scenario.due_cfg
                  (set_retrain_c Scenario.due_traded
                                 (retrain_c Scenario.due_traded + 1)) = true)
    by (vm_compute; reflexivity).
  assert (Hrw : reweight_due Scenario.due_cfg Scenario.due_traded = true)
    by (vm_compute; reflexivity).
  split; [exact Hb|]. split; [exact Ht|]. split; [exact Hre|]. split; [exact Hrw|].
  exact (retrain_precedes_reweight _ _ _ _ _ _ Hb Ht Hne Hre Hrw).
Defined.

(** The cold start: five bars, counter 5. *)
Lemma retrain_counter_counts_bars_witness :
  run_bars Scenario.estimators Scenario.cold_cfg Scenario.cold_data 1 5
           (init Scenario.cold_cfg) = Ok Scenario.cold_end /\
  retrain_c Scenario.cold_end = Z.of_nat 5.
Proof.
  assert (H : run_bars Scenario.estimators Scenario.cold_cfg Scenario.cold_data 1 5
                       (init Scenario.cold_cfg) = Ok Scenario.cold_end)
    by (vm_compute; reflexivity).
  split; [exact H|].
  exact (proj1 (retrain_counter_counts_bars _ _ _ _ _ _ H)).
Defined.

(** A bar that retrains and does not reweight: the skewed weights stay. *)
Lemma retrain_keeps_weights_witness :
  buffer_step Scenario.calm_cfg Scenario.flat_data Scenario.due_state
  = Ok Scenario.due_buffered /\
  trade_step Scenario.calm_cfg Scenario.flat_data Scenario.due_buffered
  = Ok Scenario.due_traded /\
  reweight_due Scenario.calm_cfg Scenario.due_traded = false /\
  next Scenario.estimators Scenario.calm_cfg Scenario.flat_data Scenario.due_state
  = Ok Scenario.calm_end /\
  retrain_due Scenario.calm_cfg Scenario.calm_end = true /\
  weights Scenario.calm_end = weights Scenario.due_state.
Proof.
  assert (Hb : buffer_step Scenario.calm_cfg Scenario.flat_data Scenario.due_state
               = Ok Scenario.due_buffered) by (vm_compute; reflexivity).
  assert (Ht : trade_step Scenario.calm_cfg Scenario.flat_data Scenario.due_buffered
               = Ok Scenario.due_traded) by (vm_compute; reflexivity).
  assert (Hrw : reweight_due Scenario.calm_cfg Scenario.due_traded = false)
    by (vm_compute; reflexivity).
  assert (Hn : next Scenario.estimators Scenario.calm_cfg Scenario.flat_data
                    Scenario.due_state = Ok Scenario.calm_end)
    by (vm_compute; reflexivity).
  assert (Hd : retrain_due Scenario.calm_cfg Scenario.calm_end = true)
    by (vm_compute; reflexivity).
  split; [exact Hb|]. split; [exact Ht|]. split; [exact Hrw|]. split; [exact Hn|].
  split; [exact Hd|].
  exact (proj1 (proj2 (proj2 (retrain_keeps_weights Scenario.estimators
                                Scenario.calm_cfg))
                  _ _ _ _ _ Hb Ht Hrw Hn)).
Defined.



(** Bar 61 of the long run, whose second trade triggers a reweight. *)
Lemma trailing_mae_uses_buffered_labels_witness :
  (1 + 60 < length Scenario.long_data)%nat /\
  run_bars Scenario.estimators Scenario.long_cfg Scenario.long_data 1 60
           (init Scenario.long_cfg) = Ok Scenario.long_60 /\
  reweight_due Scenario.long_cfg Scenario.long_61_retrained = true /\
  (60 <= length (X_buf Scenario.long_61_retrained))%nat /\
  forall m : Model,
    trailing_mae (recent_rets (firstn (S (1 + 60)) Scenario.long_data))
                 (lastn 60 (X_buf Scenario.long_61_retrained)) m
    = Ok (mae_buffered m (lastn 60 (samples Scenario.long_61_retrained))).
Proof.
  assert (Hl : (1 + 60 < length Scenario.long_data)%nat) by (vm_compute; lia).
  assert (Hrun : run_bars Scenario.estimators Scenario.long_cfg Scenario.long_data
                          1 60 (init Scenario.long_cfg) = Ok Scenario.long_60)
    by (vm_compute; reflexivity).
  assert (Hb : buffer_step Scenario.long_cfg
                 (firstn (S (1 + 60)) Scenario.long_data) Scenario.long_60
               = Ok Scenario.long_61_buffered) by (vm_compute; reflexivity).
  assert (Ht : trade_step Scenario.long_cfg
                 (firstn (S (1 + 60)) Scenario.long_data) Scenario.long_61_buffered
               = Ok Scenario.long_61_traded) by (vm_compute; reflexivity).
  assert (Hre : retrain_step Scenario.estimators Scenario.long_cfg
                  Scenario.long_61_traded = Ok Scenario.long_61_retrained)
    by (vm_compute; reflexivity).
  assert (Hrw : reweight_due Scenario.long_cfg Scenario.long_61_retrained = true)
    by (vm_compute; reflexivity).
  assert (HX : (60 <= length (X_buf Scenario.long_61_retrained))%nat)
    by (vm_compute; lia).
  assert (Hdef : forallb defined
                   (recent_rets (firstn (S (1 + 60)) Scenario.long_data)) = true)
    by (vm_compute; reflexivity).
  split; [exact Hl|]. split; [exact Hrun|]. split; [exact Hrw|]. split; [exact HX|].
  exact (trailing_mae_uses_buffered_labels _ _ _ _ _ _ _ _ _
           Hl Hrun Hb Ht Hre HX Hdef).
Defined.

(** ** Warm-up, counters and the names of the registry *)

Lemma set_weights_same (st : Strategy) : set_weights st (weights st) = st.
Proof. destruct st; reflexivity. Qed.

Lemma buffer_step_push (cfg : Config) (df : DataFrame) (st st1 : Strategy) :
  buffer_step cfg df st = Ok st1 ->
  st1 = st \/
  exists (rp : Row) (label : fl),
    isnan label = false /\
    st1 = set_bufs st
            (deque_append (window_len cfg) (X_buf st) (map rp (feat_cols cfg)))
            (deque_append (window_len cfg) (y_buf st) label).
Proof.
  intros H. destruct (le_lt_dec (length df) 1) as [Hl|Hl].
  - rewrite buffer_step_short in H by assumption. inv_ok. auto.
  - destruct (exists_last (l := df)) as [d1 [r ->]]; [intros ->; simpl in Hl; lia|].
    destruct (exists_last (l := d1)) as [pre [rp ->]].
    { intros ->; simpl in Hl; lia. }
    rewrite <- app_assoc in H. simpl in H. rewrite buffer_step_snoc2 in H.
    inv_ok. destruct (isnan (label_of rp r)) eqn:Hn; eauto.
Qed.

Lemma buffer_step_frame (cfg : Config) (df : DataFrame) (st st1 : Strategy) :
  buffer_step cfg df st = Ok st1 ->
  models st1 = models st /\ weights st1 = weights st /\
  retrain_c st1 = retrain_c st /\ trade_c st1 = trade_c st /\
  position st1 = position st /\
  (length (X_buf st1) <= S (length (X_buf st)))%nat /\
  ((length (X_buf st) <= window_len cfg)%nat ->
   (length (X_buf st1) <= window_len cfg)%nat).
Proof.
  intros H. apply buffer_step_push in H.
  destruct H as [-> | (rp & label & _ & ->)]; simpl.
  - repeat split; auto.
  - rewrite deque_append_length. repeat split; auto; lia.
Qed.

Lemma reweighted_short (df : DataFrame) (ms : list (string * Model))
      (X : list (list fl)) (old : list (string * fl)) :
  (length X < 60)%nat -> reweighted df ms X old = Ok old.
Proof.
  intros H. unfold reweighted.
  destruct (forallb isnan (recent_rets df)); [reflexivity|].
  rewrite lastn_length.
  destruct (Nat.ltb_spec (Nat.min 60 (length X)) 60); [reflexivity|lia].
Qed.

Lemma reweight_step_short (cfg : Config) (df : DataFrame) (st : Strategy) :
  (length (X_buf st) < 60)%nat ->
  reweight_step cfg df st
  = Ok (if reweight_due cfg st then set_trade_c st 0 else st).
Proof.
  intros H. unfold reweight_step, _update_weights.
  destruct (reweight_due cfg st); [|reflexivity].
  rewrite reweighted_short by assumption. simpl.
  now rewrite set_weights_same.
Qed.

Lemma run_bars_weights_warmup (E : Estimators) (cfg : Config) (data : DataFrame)
      (n i : nat) (st st' : Strategy) :
  run_bars E cfg data i n st = Ok st' ->
  (length (X_buf st) + n < 60)%nat \/
  ((window_len cfg < 60)%nat /\ (length (X_buf st) <= window_len cfg)%nat) ->
  weights st' = weights st.
Proof.
  revert i st. induction n as [|n IH]; intros i st H Hb; simpl in H.
  - inv_ok. reflexivity.
  - inv_ok. rename st0 into sta.
    apply next_inv in Hstep.
    destruct Hstep as (st1 & st2 & st3 & H1 & H2 & H3 & H4).
    apply buffer_step_frame in H1.
    destruct H1 as (_ & Hw1 & _ & _ & _ & Hg & Hcap).
    apply trade_step_frame in H2. destruct H2 as (_ & Hw2 & _ & HX2 & _).
    apply retrain_step_frame in H3. destruct H3 as (Hw3 & _ & _ & HX3 & _).
    assert (Hlen : length (X_buf st3) = length (X_buf st1)) by congruence.
    rewrite reweight_step_short in H4 by (rewrite Hlen; lia).
    injection H4 as H4.
    assert (Ha : weights sta = weights st3 /\ X_buf sta = X_buf st3).
    { rewrite <- H4. destruct (reweight_due cfg st3); auto. }
    destruct Ha as [Hwa HXa].
    rewrite (IH _ _ H), Hwa; [congruence|].
    rewrite HXa, Hlen. lia.
Qed.

Lemma run_bars_models_warmup (E : Estimators) (cfg : Config) (data : DataFrame)
      (n i : nat) (st st' : Strategy) :
  run_bars E cfg data i n st = Ok st' ->
  (length (X_buf st) + n <= 500)%nat \/
  ((window_len cfg <= 500)%nat /\ (length (X_buf st) <= window_len cfg)%nat) ->
  models st' = models st.
Proof.
  revert i st. induction n as [|n IH]; intros i st H Hb; simpl in H.
  - inv_ok. reflexivity.
  - inv_ok. rename st0 into sta.
    pose proof (next_retrain _ _ _ _ _ Hstep) as (_ & _ & Hskip).
    destruct (next_bufs _ _ _ _ _ Hstep) as (st1 & H1 & HX & _).
    apply buffer_step_frame in H1.
    destruct H1 as (_ & _ & _ & _ & _ & Hg & Hcap).
    assert (Hdue : retrain_due cfg sta = false).
    { unfold retrain_due. rewrite HX.
      destruct (Nat.ltb_spec 500 (length (X_buf st1))); [lia|].
      apply andb_false_r. }
    rewrite <- (Hskip Hdue).
    apply IH with (i := S i); [exact H|]. rewrite HX. lia.
Qed.

(** X1: during the first 59 bars of a run, and for ever when the deques
    hold fewer than 60 samples, the weights are those of [init]. *)
Theorem weights_fixed_during_warmup :
  forall (E : Estimators) (cfg : Config) (data : DataFrame) (i n : nat)
         (st : Strategy),
    run_bars E cfg data i n (init cfg) = Ok st ->
    (n < 60)%nat \/ (window_len cfg < 60)%nat ->
    weights st = weights (init cfg).
Proof.
  intros E cfg data i n st H Hb.
  apply (run_bars_weights_warmup _ _ _ _ _ _ _ H). simpl. lia.
Qed.

(** X2: during the first 500 bars of a run, and for ever when the deques
    hold at most 500 samples, the models are the base models: no retrain
    executes, whatever the retrain interval. *)
Theorem models_fixed_during_warmup :
  forall (E : Estimators) (cfg : Config) (data : DataFrame) (i n : nat)
         (st : Strategy),
    run_bars E cfg data i n (init cfg) = Ok st ->
    (n <= 500)%nat \/ (window_len cfg <= 500)%nat ->
    models st = base_models cfg.
Proof.
  intros E cfg data i n st H Hb.
  apply (run_bars_models_warmup _ _ _ _ _ _ _ H). simpl. lia.
Qed.

Lemma decide_trade_c (cfg : Config) (z : fl) (st : Strategy) :
  decide cfg z st = st \/
  (trade_c (decide cfg z st) = trade_c st + 1 /\
   position (decide cfg z st) <> position st).
Proof.
  unfold decide.
  destruct (fgt z (trade_threshold cfg) && negb (is_long (position st))) eqn:H1.
  - right. apply andb_prop in H1. destruct H1 as [_ H1].
    split; [reflexivity|]. simpl. unfold buy, sell. destruct (position st); simpl in *; congruence.
  - destruct (flt z (fneg (trade_threshold cfg)) && negb (is_short (position st)))
      eqn:H2; [|left; reflexivity].
    right. apply andb_prop in H2. destruct H2 as [_ H2].
    split; [reflexivity|]. simpl. unfold buy, sell. destruct (position st); simpl in *; congruence.
Qed.

Lemma next_trade_c (E : Estimators) (cfg : Config) (df : DataFrame)
      (st st' : Strategy) :
  next E cfg df st = Ok st' ->
  (1 <= reweight_every_trades cfg ->
   0 <= trade_c st < reweight_every_trades cfg ->
   0 <= trade_c st' < reweight_every_trades cfg) /\
  (reweight_every_trades cfg <= 0 -> 0 <= trade_c st -> trade_c st' = 0).
Proof.
  intros H. apply next_inv in H.
  destruct H as (st1 & st2 & st3 & H1 & H2 & H3 & H4).
  apply buffer_step_frame in H1. destruct H1 as (_ & _ & _ & Hc1 & _).
  unfold trade_step in H2.
  destruct (_pred cfg df st1) as [z|e]; [|discriminate H2].
  cbn [bind] in H2. injection H2 as <-.
  apply retrain_step_frame in H3. destruct H3 as (_ & Hc3 & _).
  assert (Hc : trade_c st3 = trade_c st \/ trade_c st3 = trade_c st + 1).
  { rewrite Hc3. destruct (decide_trade_c cfg z st1) as [-> | [-> _]]; lia. }
  unfold reweight_step, reweight_due in H4.
  destruct (Z.leb_spec (reweight_every_trades cfg) (trade_c st3));
    repeat inv_ok; simpl; split; intros; lia.
Qed.

(** X3: at the end of every bar of a run the trade counter is below the
    reweight interval (an interval of at least 1); with an interval of 0
    or less the counter is 0 at the end of every bar. *)
Theorem trade_counter_stays_below_interval :
  forall (E : Estimators) (cfg : Config) (data : DataFrame) (i n : nat)
         (st : Strategy),
    run_bars E cfg data i n (init cfg) = Ok st ->
    (1 <= reweight_every_trades cfg ->
     0 <= trade_c st < reweight_every_trades cfg) /\
    (reweight_every_trades cfg <= 0 -> trade_c st = 0).
Proof.
  intros E cfg data i n st H.
  assert (Hgen : forall n i s s',
             run_bars E cfg data i n s = Ok s' ->
             (1 <= reweight_every_trades cfg ->
              0 <= trade_c s < reweight_every_trades cfg ->
              0 <= trade_c s' < reweight_every_trades cfg) /\
             (reweight_every_trades cfg <= 0 -> trade_c s = 0 -> trade_c s' = 0)).
  { clear. induction n as [|n IH]; intros i s s' H; simpl in H.
    - inv_ok. auto.
    - inv_ok. rename st into sa.
      destruct (next_trade_c _ _ _ _ _ Hstep) as [Ha Hb].
      destruct (IH _ _ _ H) as [Hc Hd].
      split; intros; [apply Hc; auto | apply Hd; auto; apply Hb; lia]. }
  destruct (Hgen _ _ _ _ H) as [Ha Hb]. simpl in *.
  split; intros; [apply Ha; lia | apply Hb; auto].
Qed.

(** ** Lookups in the registry *)

Lemma getitem_present {V : Type} (d : list (string * V)) (k : string) :
  In k (keys d) -> exists v, getitem d k = Ok v.
Proof.
  induction d as [|[k' v] d IH]; simpl; intros H; [contradiction|].
  destruct (String.eqb_spec k' k) as [->|Hne]; [eauto|].
  destruct H as [H|H]; [contradiction|auto].
Qed.


Lemma weighted_sum_total (ws : list (string * fl)) (preds : list (string * fl))
      (acc : fl) :
  incl (keys preds) (keys ws) ->
  exists z, weighted_sum ws acc preds = Ok z.
Proof.
  revert acc. induction preds as [|[k p] preds IH]; intros acc H; simpl.
  - eauto.
  - destruct (getitem_present ws k) as [w ->]; [apply H; now left|].
    simpl. apply IH. intros x Hx. apply H. now right.
Qed.

Lemma pred_total (cfg : Config) (df : DataFrame) (st : Strategy) :
  df <> [] ->
  incl (keys (models st)) (keys (weights st)) ->
  exists z, _pred cfg df st = Ok z.
Proof.
  intros Hdf Hk. unfold _pred.
  destruct (last_features cfg df Hdf) as [fs ->]. simpl.
  apply weighted_sum_total. unfold keys in *. rewrite map_map. exact Hk.
Qed.

Lemma mapM_keys {A : Type} (f : string * A -> result fl)
      (ms : list (string * A)) (out : list (string * fl)) :
  mapM (fun km => e <- f km ;; Ok (fst km, e)) ms = Ok out ->
  keys out = keys ms.
Proof.
  revert out. induction ms as [|km ms IH]; intros out H; simpl in H.
  - inv_ok. reflexivity.
  - destruct (f km) as [e|]; [|discriminate H]. cbn [bind] in H.
    destruct (mapM _ ms) as [bs|]; [|discriminate H]. cbn [bind] in H.
    inv_ok. simpl. f_equal. now apply IH.
Qed.

Lemma inverse_error_weights_keys (mae : list (string * fl)) :
  keys (inverse_error_weights mae) = keys mae.
Proof. unfold inverse_error_weights, keys. now rewrite map_map. Qed.

Lemma reweighted_keys (df : DataFrame) (ms : list (string * Model))
      (X : list (list fl)) (old ws : list (string * fl)) :
  reweighted df ms X old = Ok ws ->
  ws = old \/ keys ws = keys ms.
Proof.
  unfold reweighted. intros H.
  destruct (forallb isnan (recent_rets df)); [inv_ok; auto|].
  destruct (length (lastn 60 X) <? 60)%nat; [inv_ok; auto|].
  destruct (mapM _ ms) as [mae|] eqn:Hm; [|discriminate H].
  cbn [bind] in H. inv_ok. right.
  rewrite inverse_error_weights_keys. eapply mapM_keys. exact Hm.
Qed.

Lemma next_fitted (E : Estimators) (cfg : Config) (df : DataFrame)
      (st st' : Strategy) :
  next E cfg df st = Ok st' -> fitted_registry st -> fitted_registry st'.
Proof.
  intros H [Hm Hw]. apply next_inv in H.
  destruct H as (st1 & st2 & st3 & H1 & H2 & H3 & H4).
  apply buffer_step_frame in H1. destruct H1 as (Hm1 & Hw1 & _).
  apply trade_step_frame in H2. destruct H2 as (Hm2 & Hw2 & _).
  assert (H3' : keys (models st3) = fitted_names /\ weights st3 = weights st2).
  { unfold retrain_step in H3.
    destruct (retrain_every cfg =? 0); [discriminate H3|].
    destruct (retrain_due cfg _); inv_ok; simpl; split; auto; congruence. }
  destruct H3' as [Hm3 Hw3].
  unfold reweight_step, _update_weights in H4.
  destruct (reweight_due cfg st3).
  - destruct (reweighted df (models st3) (X_buf st3) (weights st3)) as [ws|] eqn:Hr;
      [|discriminate H4].
    cbn [bind] in H4. inv_ok. split; simpl; [assumption|].
    destruct (reweighted_keys _ _ _ _ _ Hr) as [-> | ->]; congruence.
  - inv_ok. split; congruence.
Qed.

Lemma init_fitted (cfg : Config) :
  keys (base_models cfg) = fitted_names -> fitted_registry (init cfg).
Proof.
  intros H. split; simpl; [assumption|].
  unfold keys in *. rewrite map_map. simpl. assumption.
Qed.

Lemma run_bars_fitted (E : Estimators) (cfg : Config) (data : DataFrame)
      (n i : nat) (st st' : Strategy) :
  run_bars E cfg data i n st = Ok st' -> fitted_registry st -> fitted_registry st'.
Proof.
  revert i st. induction n as [|n IH]; intros i st H Hf; simpl in H.
  - inv_ok. assumption.
  - inv_ok. eapply IH; [eassumption|]. eapply next_fitted; eassumption.
Qed.

(** X5: on a registry that carries the names of [fit_models_on_gpu], as
    the notebook builds it, the names never change: after every bar of a
    run the models and the weights carry these four names, in its order. *)
Theorem registry_keeps_fitted_names :
  forall (E : Estimators) (cfg : Config) (data : DataFrame) (i n : nat)
         (st : Strategy),
    keys (base_models cfg) = fitted_names ->
    run_bars E cfg data i n (init cfg) = Ok st ->
    keys (models st) = fitted_names /\ keys (weights st) = fitted_names.
Proof.
  intros E cfg data i n st Hk H.
  exact (run_bars_fitted _ _ _ _ _ _ _ H (init_fitted cfg Hk)).
Qed.


(** ** What the deques hold *)

Lemma Forall_lastn {A : Type} (P : A -> Prop) (n : nat) (l : list A) :
  Forall P l -> Forall P (lastn n l).
Proof.
  intros H. destruct (lastn_suffix n l) as [p Hp].
  rewrite Hp in H. apply Forall_app in H. tauto.
Qed.

Lemma Forall_deque_append {A : Type} (P : A -> Prop) (W : nat) (d : list A) (x : A) :
  Forall P d -> P x -> Forall P (deque_append W d x).
Proof.
  intros Hd Hx. apply Forall_lastn. apply Forall_app. auto.
Qed.

(** X7: every feature vector in the deque has one entry per feature
    column, and no label in the deque is [NaN]. *)
Theorem buffered_samples_are_well_formed :
  forall (E : Estimators) (cfg : Config) (data : DataFrame) (i n : nat)
         (st : Strategy),
    run_bars E cfg data i n (init cfg) = Ok st ->
    Forall (fun x => length x = length (feat_cols cfg)) (X_buf st) /\
    Forall (fun y => isnan y = false) (y_buf st).
Proof.
  intros E cfg data i n st H.
  assert (Hgen : forall n i s s',
             run_bars E cfg data i n s = Ok s' ->
             Forall (fun x => length x = length (feat_cols cfg)) (X_buf s) /\
             Forall (fun y => isnan y = false) (y_buf s) ->
             Forall (fun x => length x = length (feat_cols cfg)) (X_buf s') /\
             Forall (fun y => isnan y = false) (y_buf s')).
  { clear. induction n as [|n IH]; intros i s s' H Hs; simpl in H.
    - inv_ok. assumption.
    - inv_ok. rename st into sa. apply (IH _ _ _ H).
      destruct (next_bufs _ _ _ _ _ Hstep) as (s1 & H1 & -> & ->).
      apply buffer_step_push in H1.
      destruct H1 as [-> | (rp & label & Hl & ->)]; [assumption|].
      destruct Hs as [HX Hy]. simpl. split.
      + apply Forall_deque_append; [assumption|apply length_map].
      + apply Forall_deque_append; assumption. }
  apply (Hgen _ _ _ _ H). simpl. split; constructor.
Qed.

(** ** The trading decision *)

(** X8: the decision either leaves the whole state as it is, or it counts
    exactly one trade and ends in another position than it started from;
    nothing but the position and the trade counter changes. *)
Theorem trade_counted_iff_position_changes :
  forall (cfg : Config) (z : fl) (st : Strategy),
    (decide cfg z st = st \/
     (trade_c (decide cfg z st) = trade_c st + 1 /\
      position (decide cfg z st) <> position st)) /\
    models (decide cfg z st) = models st /\
    weights (decide cfg z st) = weights st /\
    retrain_c (decide cfg z st) = retrain_c st /\
    X_buf (decide cfg z st) = X_buf st /\
    y_buf (decide cfg z st) = y_buf st.
Proof.
  intros cfg z st. split; [apply decide_trade_c | apply decide_frame].
Qed.

Lemma signals_exclusive (t z : fl) :
  flt t (Fin 0) = false -> fgt z t = true -> flt z (fneg t) = false.
Proof.
  unfold fgt. intros Ht Hz.
  destruct t as [t| | |], z as [z| | |]; simpl in *; try discriminate;
    try reflexivity.
  apply negb_false_iff in Ht. apply negb_true_iff in Hz.
  apply negb_false_iff. apply Qle_bool_iff. apply Qle_bool_iff in Ht.
  destruct (Qle_bool z t) eqn:Hzt; [discriminate|].
  assert (~ (z <= t)%Q).
  { intros Hc. apply Qle_bool_iff in Hc. congruence. }
  lra.
Qed.

(** X9: with a threshold that is not negative, a prediction above the
    threshold ends in Long and one below its negative ends in Short,
    whatever the position was, and the same prediction a second time
    changes nothing. *)
Theorem decision_follows_signal :
  forall (cfg : Config) (z : fl) (st : Strategy),
    flt (trade_threshold cfg) (Fin 0) = false ->
    (fgt z (trade_threshold cfg) = true -> position (decide cfg z st) = Long) /\
    (flt z (fneg (trade_threshold cfg)) = true ->
     position (decide cfg z st) = Short) /\
    decide cfg z (decide cfg z st) = decide cfg z st.
Proof.
  intros cfg z st Ht.
  pose proof (signals_exclusive (trade_threshold cfg) z Ht) as Hex.
  unfold decide.
  destruct (fgt z (trade_threshold cfg)) eqn:Hg;
    destruct (flt z (fneg (trade_threshold cfg))) eqn:Hl;
    try (specialize (Hex eq_refl); discriminate);
    destruct (position st) eqn:Hp; simpl; rewrite ?Hg, ?Hl, ?Hp; simpl;
    repeat split; intros; try reflexivity; try discriminate.
Qed.

(** X10: with a negative threshold [t], a prediction strictly between [t]
    and [-t] changes the position on every bar: from Flat or Short to
    Long, from Long to Short. *)
Theorem negative_threshold_trades_every_bar :
  forall (cfg : Config) (t q : Q) (st : Strategy),
    trade_threshold cfg = Fin t ->
    (t < q)%Q -> (q < - t)%Q ->
    position (decide cfg (Fin q) st)
    = (if is_long (position st) then Short else Long) /\
    trade_c (decide cfg (Fin q) st) = trade_c st + 1.
Proof.
  intros cfg t q st Ht H1 H2. unfold decide, fgt. rewrite Ht. simpl.
  assert (Ha : Qle_bool q t = false).
  { destruct (Qle_bool q t) eqn:Hc; [|reflexivity].
    apply Qle_bool_iff in Hc. lra. }
  assert (Hb : Qle_bool (- t) q = false).
  { destruct (Qle_bool (- t) q) eqn:Hc; [|reflexivity].
    apply Qle_bool_iff in Hc. lra. }
  rewrite Ha, Hb. simpl.
  destruct (position st); simpl; split; reflexivity.
Qed.

(** ** A reweight that does nothing *)

(** X11: when a reweight is due while the deque holds fewer than 60
    samples or the trailing returns are all [NaN], the weights stay as
    they are and the trade counter is set back to 0 all the same. *)
Theorem idle_reweight_resets_counter :
  forall (cfg : Config) (df : DataFrame) (st : Strategy),
    reweight_due cfg st = true ->
    (length (X_buf st) < 60)%nat \/ forallb isnan (recent_rets df) = true ->
    reweight_step cfg df st = Ok (set_trade_c st 0).
Proof.
  intros cfg df st Hdue [Hs|Hn].
  - rewrite reweight_step_short by assumption. now rewrite Hdue.
  - unfold reweight_step, _update_weights, reweighted. rewrite Hdue, Hn.
    simpl. now rewrite set_weights_same.
Qed.

(** ** Weights that are all NaN *)

Lemma getitem_all_nan (ws : list (string * fl)) (k : string) (v : fl) :
  all_nan ws = true -> getitem ws k = Ok v -> v = NaN.
Proof.
  induction ws as [|[k' w] ws IH]; simpl; intros Hn H; [discriminate|].
  apply andb_prop in Hn. destruct Hn as [Hw Hn]. simpl in Hw.
  destruct (String.eqb k' k).
  - inv_ok. destruct v; try discriminate. reflexivity.
  - auto.
Qed.

Lemma fadd_nan_r (x : fl) : fadd x NaN = NaN.
Proof. destruct x; reflexivity. Qed.

Lemma fmul_nan_r (x : fl) : fmul x NaN = NaN.
Proof. destruct x; reflexivity. Qed.

Lemma weighted_sum_nan (ws preds : list (string * fl)) :
  all_nan ws = true ->
  incl (keys preds) (keys ws) ->
  weighted_sum ws NaN preds = Ok NaN.
Proof.
  intros Hn. induction preds as [|[k p] preds IH]; intros Hk; simpl.
  - reflexivity.
  - destruct (getitem_present ws k) as [w Hw]; [apply Hk; now left|].
    rewrite Hw. cbn [bind]. apply IH. intros x Hx. apply Hk. now right.
Qed.

Lemma pred_nan (cfg : Config) (df : DataFrame) (st : Strategy) (z : fl) :
  models st <> [] ->
  incl (keys (models st)) (keys (weights st)) ->
  all_nan (weights st) = true ->
  _pred cfg df st = Ok z -> z = NaN.
Proof.
  intros Hm Hk Hn. unfold _pred.
  destruct (mapM _ (feat_cols cfg)) as [fs|]; [|discriminate]. cbn [bind].
  destruct (models st) as [|[k m] ms]; [contradiction|]. simpl.
  destruct (getitem_present (weights st) k) as [w Hw]; [apply Hk; now left|].
  rewrite Hw. cbn [bind].
  rewrite (getitem_all_nan _ _ _ Hn Hw), fmul_nan_r. simpl fadd.
  rewrite weighted_sum_nan; [congruence|assumption|].
  unfold keys in *. rewrite map_map. simpl.
  intros x Hx. apply Hk. now right.
Qed.

Lemma decide_nan (cfg : Config) (st : Strategy) : decide cfg NaN st = st.
Proof.
  unfold decide, fgt.
  destruct (trade_threshold cfg); reflexivity.
Qed.

Lemma next_frozen (E : Estimators) (cfg : Config) (df : DataFrame)
      (st st' : Strategy) :
  fitted_registry st ->
  all_nan (weights st) = true ->
  trade_c st < reweight_every_trades cfg ->
  next E cfg df st = Ok st' ->
  position st' = position st /\ trade_c st' = trade_c st /\
  weights st' = weights st.
Proof.
  intros [Hm Hw] Hn Hc H. apply next_inv in H.
  destruct H as (st1 & st2 & st3 & H1 & H2 & H3 & H4).
  apply buffer_step_frame in H1.
  destruct H1 as (Hm1 & Hw1 & _ & Hc1 & Hp1 & _).
  unfold trade_step in H2.
  destruct (_pred cfg df st1) as [z|] eqn:Hz; [|discriminate H2].
  cbn [bind] in H2. injection H2 as <-.
  apply pred_nan in Hz.
  2:{ rewrite Hm1. intros Hnil. rewrite Hnil in Hm. discriminate Hm. }
  2:{ rewrite Hm1, Hw1, Hm, Hw. apply incl_refl. }
  2:{ now rewrite Hw1. }
  subst z. rewrite decide_nan in H3.
  apply retrain_step_frame in H3.
  destruct H3 as (Hw3 & Hc3 & _ & _ & _ & Hp3).
  unfold reweight_step, reweight_due in H4.
  destruct (Z.leb_spec (reweight_every_trades cfg) (trade_c st3)); [lia|].
  inv_ok. repeat split; congruence.
Qed.

(** X12: once every weight is [NaN] (what a reweight over a window with an
    undefined return leaves behind), the strategy never trades again: over
    any further bars the position, the trade counter and the weights stay
    as they are, so no later reweight repairs them. *)
Theorem nan_weights_freeze_the_strategy :
  forall (E : Estimators) (cfg : Config) (data : DataFrame) (i n : nat)
         (st st' : Strategy),
    fitted_registry st ->
    all_nan (weights st) = true ->
    trade_c st < reweight_every_trades cfg ->
    run_bars E cfg data i n st = Ok st' ->
    position st' = position st /\ trade_c st' = trade_c st /\
    weights st' = weights st.
Proof.
  intros E cfg data i n. revert i.
  induction n as [|n IH]; intros i st st' Hf Hn Hc H; simpl in H.
  - inv_ok. auto.
  - inv_ok. rename st0 into sa.
    destruct (next_frozen _ _ _ _ _ Hf Hn Hc Hstep) as (Hp & Ht & Hw).
    destruct (IH (S i) sa st') as (Hp' & Ht' & Hw').
    + eapply next_fitted; eassumption.
    + now rewrite Hw.
    + now rewrite Ht.
    + assumption.
    + repeat split; congruence.
Qed.

(** ** The ensemble prediction as a weighted mean *)

Lemma getitem_app {V : Type} (pre d : list (string * V)) (k : string) :
  ~ In k (keys pre) -> getitem (pre ++ d) k = getitem d k.
Proof.
  induction pre as [|[k' v] pre IH]; simpl; intros H; [reflexivity|].
  destruct (String.eqb_spec k' k) as [->|Hne]; [tauto|].
  apply IH. tauto.
Qed.

Lemma weighted_sum_dot (ks : list string) :
  forall (pre : list (string * fl)) (ps vs : list Q) (acc : Q),
    NoDup ks ->
    length ps = length ks -> length vs = length ks ->
    (forall k, In k ks -> ~ In k (keys pre)) ->
    exists z,
      weighted_sum (pre ++ combine ks (map Fin vs)) (Fin acc)
                   (combine ks (map Fin ps)) = Ok (Fin z) /\
      (z == acc + dot ps vs)%Q.
Proof.
  induction ks as [|k ks IH]; intros pre ps vs acc Hnd Hp Hv Hpre.
  - destruct ps; [|discriminate]. simpl. eexists. split; [reflexivity|]. ring.
  - destruct ps as [|p ps]; [discriminate|].
    destruct vs as [|v vs]; [discriminate|].
    simpl in Hp, Hv. inversion Hnd as [|? ? Hk Hnd']; subst.
    cbn [combine map weighted_sum].
    rewrite getitem_app by (apply Hpre; now left).
    simpl getitem. rewrite String.eqb_refl. cbn [bind]. simpl fadd.
    destruct (IH (pre ++ [(k, Fin v)]) ps vs (acc + p * v)%Q)
      as (z & Hz & Hzq); auto.
    + intros k' Hk' Hin. unfold keys in Hin. rewrite map_app in Hin.
      apply in_app_or in Hin. destruct Hin as [Hin|Hin].
      * apply (Hpre k'); [now right|exact Hin].
      * simpl in Hin. destruct Hin as [<-|[]]. contradiction.
    + rewrite <- app_assoc in Hz. simpl in Hz.
      exists z. split; [exact Hz|]. rewrite Hzq. simpl. ring.
Qed.

Lemma dot_bounds (lo hi : Q) (ps ws : list Q) :
  length ps = length ws ->
  Forall (fun p => lo <= p <= hi)%Q ps ->
  Forall (fun w => 0 <= w)%Q ws ->
  (lo * Qsum ws <= dot ps ws <= hi * Qsum ws)%Q.
Proof.
  revert ws. induction ps as [|p ps IH]; intros [|w ws] Hl Hp Hw;
    try discriminate; simpl.
  - split; lra.
  - inversion Hp as [|? ? [Hlo Hhi] Hp']; subst.
    inversion Hw as [|? ? Hw0 Hw']; subst.
    destruct (IH ws) as [Ha Hb]; auto.
    pose proof (Qmult_le_compat_r _ _ _ Hlo Hw0).
    pose proof (Qmult_le_compat_r _ _ _ Hhi Hw0).
    split; lra.
Qed.

Lemma combine_keys_map {A B : Type} (f : A -> B) (ms : list (string * A)) :
  map (fun km => (fst km, f (snd km))) ms = combine (keys ms) (map f (map snd ms)).
Proof.
  induction ms as [|[k m] ms IH]; simpl; [reflexivity|]. now rewrite IH.
Qed.

(** X13: with one finite non-negative weight per model, of sum 1, and
    finite predictions, [_pred] returns the dot product of predictions and
    weights, which lies between the smallest and the largest prediction
    of the models. *)
Theorem prediction_is_convex_combination :
  forall (cfg : Config) (df : DataFrame) (st : Strategy)
         (feats : list fl) (ps ws : list Q) (lo hi : Q),
    mapM (fun col => iloc_m1 (column df col)) (feat_cols cfg) = Ok feats ->
    NoDup (keys (models st)) ->
    weights st = combine (keys (models st)) (map Fin ws) ->
    length ws = length (models st) ->
    Forall (fun w => 0 <= w)%Q ws ->
    (Qsum ws == 1)%Q ->
    map (fun km => predict (snd km) feats) (models st) = map Fin ps ->
    Forall (fun p => lo <= p <= hi)%Q ps ->
    exists z : Q,
      _pred cfg df st = Ok (Fin z) /\
      (z == dot ps ws)%Q /\ (lo <= z <= hi)%Q.
Proof.
  intros cfg df st feats ps ws lo hi Hf Hnd Hw Hlw Hw0 Hsum Hps Hp.
  unfold _pred. rewrite Hf. cbn [bind].
  rewrite (combine_keys_map (fun m => predict m feats)), map_map, Hps, Hw.
  assert (Hlp : length ps = length (keys (models st))).
  { unfold keys. rewrite length_map, <- (length_map Fin ps), <- Hps.
    apply length_map. }
  destruct (weighted_sum_dot (keys (models st)) [] ps ws 0%Q)
    as (z & Hz & Hzq); auto.
  { unfold keys. now rewrite length_map. }
  simpl app in Hz. exists z. split; [exact Hz|].
  assert (Hd : (z == dot ps ws)%Q) by (rewrite Hzq; ring).
  split; [exact Hd|].
  destruct (dot_bounds lo hi ps ws) as [Ha Hb]; auto.
  { unfold keys in Hlp. rewrite length_map in Hlp. congruence. }
  rewrite Hsum in Ha, Hb. rewrite Hd. split; lra.
Qed.

(** ** The loader's column check *)

Lemma has_column_In (columns : list string) (c : string) :
  has_column columns c = true <-> In c columns.
Proof.
  unfold has_column. rewrite existsb_exists. split.
  - intros (x & Hin & He). apply String.eqb_eq in He. now subst.
  - intros H. exists c. split; [assumption|apply String.eqb_refl].
Qed.

(** X14: [verify_cols] returns the frame it was given exactly when all
    five columns [asset_open], [asset_high], [asset_low], [asset_close],
    [asset_volume] are among its columns, and raises [ValueError] exactly
    when one of them is not. *)
Theorem verify_cols_accepts_complete_frames :
  forall (F : Type) (columns : F -> list string) (df : F) (asset : string),
    (verify_cols columns df asset = Ok df <->
     forall c, In c (needed_cols asset) -> In c (columns df)) /\
    (verify_cols columns df asset = Raise ValueError <->
     exists c, In c (needed_cols asset) /\ ~ In c (columns df)).
Proof.
  intros F columns df asset. unfold verify_cols, missing_cols.
  destruct (filter _ (needed_cols asset)) as [|c0 l] eqn:Hf.
  - assert (Hall : forall c, In c (needed_cols asset) -> In c (columns df)).
    { intros c Hc. apply has_column_In.
      destruct (has_column (columns df) c) eqn:Hh; [reflexivity|].
      assert (Hin : In c (filter (fun c => negb (has_column (columns df) c))
                                 (needed_cols asset))).
      { apply filter_In. split; [assumption|]. now rewrite Hh. }
      rewrite Hf in Hin. contradiction. }
    split; split; intros H; auto; try discriminate.
    destruct H as (c & Hc & Hn). exfalso. auto.
  - assert (Hin : In c0 (filter (fun c => negb (has_column (columns df) c))
                                (needed_cols asset))) by (rewrite Hf; now left).
    apply filter_In in Hin. destruct Hin as [Hc Hn].
    apply negb_true_iff in Hn.
    assert (Hnot : ~ In c0 (columns df)).
    { intros Hi. apply has_column_In in Hi. congruence. }
    split; split; intros H; try discriminate; eauto.
    exfalso. auto.
Qed.

(** ** Training target and buffered label *)

Lemma nth_shift_m1 (s : list fl) (j : nat) :
  nth j (shift_m1 s) NaN = nth (S j) s NaN.
Proof.
  destruct s as [|x s]; simpl; [now destruct j|].
  destruct (Nat.lt_ge_cases j (length s)) as [H|H].
  - now rewrite app_nth1.
  - rewrite (nth_overflow s) by assumption.
    rewrite app_nth2 by assumption.
    destruct (j - length s)%nat as [|[|k]]; reflexivity.
Qed.

(** X15: the sample the buffering step of bar [i >= 1] appends pairs the
    features of bar [i-1] with the training target of bar [i-1], the
    [pct_change().shift(-1)] of the closes; it appends nothing when that
    target is [NaN]. *)
Theorem buffered_label_is_training_target :
  forall (cfg : Config) (data : DataFrame) (i : nat) (st st1 : Strategy),
    (1 <= i)%nat -> (i < length data)%nat ->
    buffer_step cfg (firstn (S i) data) st = Ok st1 ->
    let target := nth (i - 1) (r_next (column data "Close")) NaN in
    let sample :=
      if isnan target then []
      else [(map (nth (i - 1) data no_row) (feat_cols cfg), target)] in
    X_buf st1 = push_all (window_len cfg) (X_buf st) (map fst sample) /\
    y_buf st1 = push_all (window_len cfg) (y_buf st) (map snd sample).
Proof.
  intros cfg data i st st1 Hi Hlen H target sample.
  destruct (buffer_step_bar cfg data i st st1 Hlen H) as [HX Hy].
  assert (Hs : bar_sample cfg data i = sample).
  { unfold bar_sample, sample, target, r_next.
    rewrite nth_shift_m1.
    replace (S (i - 1)) with i by lia. reflexivity. }
  rewrite Hs in HX, Hy. auto.
Qed.

(** ** Direction labels *)

Lemma bfill_shape (s : list fl) :
  Forall (fun x => x = Fin 1 \/ x = Fin (- (1)) \/ x = NaN) s ->
  exists k,
    Forall (fun x => x = Fin 1 \/ x = Fin (- (1))) (firstn k (bfill s)) /\
    Forall (fun x => x = NaN) (skipn k (bfill s)) /\
    length (bfill s) = length s.
Proof.
  induction 1 as [|x s Hx _ IH]; simpl.
  - exists 0%nat. repeat split; constructor.
  - destruct IH as (k & Hf & Hn & Hl).
    destruct Hx as [-> | [-> | ->]]; simpl.
    + exists (S k). simpl. repeat split; auto.
    + exists (S k). simpl. repeat split; auto.
    + destruct (bfill s) as [|b r] eqn:Hb.
      * exists 0%nat. simpl. repeat split; auto.
      * destruct k as [|k]; simpl in *.
        -- exists 0%nat. simpl. inversion Hn; subst.
           repeat split; auto.
        -- exists (S (S k)). simpl. inversion Hf; subst.
           repeat split; auto.
Qed.

Lemma signs_replaced (returns : list fl) :
  Forall (fun x => x = Fin 1 \/ x = Fin (- (1)) \/ x = NaN)
         (replace_zero (map np_sign returns)).
Proof.
  unfold replace_zero. rewrite map_map. apply Forall_map.
  apply Forall_forall. intros x _.
  destruct x as [q| | |]; simpl; auto.
  destruct (Qpos q); [auto|].
  destruct (Qzero q); simpl; auto.
Qed.

(** X16: the direction column has one entry per return; each entry is 1,
    -1 or missing, never 0, and the missing entries are all at the end:
    dropping the rows without a direction leaves labels 1 and -1 only. *)
Theorem direction_labels_are_binary :
  forall returns : list fl,
    length (direction returns) = length returns /\
    exists k,
      Forall (fun x => x = Fin 1 \/ x = Fin (- (1)))
             (firstn k (direction returns)) /\
      Forall (fun x => x = NaN) (skipn k (direction returns)).
Proof.
  intros returns. unfold direction.
  destruct (bfill_shape _ (signs_replaced returns)) as (k & Hf & Hn & Hl).
  split.
  - rewrite Hl. unfold replace_zero. now rewrite !length_map.
  - exists k. auto.
Qed.

(** ** The sign rule of [MLStrategy] *)

Lemma Qle_bool_false (a b : Q) : Qle_bool a b = false <-> (b < a)%Q.
Proof.
  split; intros H.
  - destruct (Qlt_le_dec b a) as [|Hc]; [assumption|].
    apply Qle_bool_iff in Hc. congruence.
  - destruct (Qle_bool a b) eqn:Hc; [|reflexivity].
    apply Qle_bool_iff in Hc. lra.
Qed.

Lemma sign_above_zero (z : fl) : fgt (np_sign z) (Fin 0) = fgt z (Fin 0).
Proof.
  unfold fgt. destruct z as [q| | |]; simpl; try reflexivity.
  unfold Qpos, Qzero.
  destruct (Qle_bool q 0) eqn:Hq; simpl; [|reflexivity].
  destruct (Qeq_bool q 0); reflexivity.
Qed.

Lemma sign_below_zero (z : fl) : flt (np_sign z) (Fin 0) = flt z (Fin 0).
Proof.
  destruct z as [q| | |]; simpl; try reflexivity.
  unfold Qpos, Qzero.
  destruct (Qle_bool q 0) eqn:Hq; simpl.
  - destruct (Qeq_bool q 0) eqn:He; simpl.
    + apply Qeq_bool_eq in He. symmetry. apply negb_false_iff.
      apply Qle_bool_iff. lra.
    + apply Qeq_bool_neq in He. apply Qle_bool_iff in Hq.
      symmetry. apply negb_true_iff. apply Qle_bool_false.
      destruct (Qlt_le_dec q 0) as [|Hc]; [assumption|].
      exfalso. apply He. lra.
  - apply Qle_bool_false in Hq. symmetry. apply negb_false_iff.
    apply Qle_bool_iff. lra.
Qed.

Lemma zero_threshold (t : Q) (z : fl) :
  (t == 0)%Q ->
  fgt z (Fin t) = fgt z (Fin 0) /\ flt z (fneg (Fin t)) = flt z (Fin 0).
Proof.
  intros Ht. unfold fgt. destruct z as [q| | |]; simpl; auto.
  split; f_equal.
  - now rewrite Ht.
  - assert (Hn : (- t == 0)%Q) by (rewrite Ht; reflexivity).
    now rewrite Hn.
Qed.

(** X17: with a threshold of zero the decision of [MetaVoteStrategyV2]
    moves the position exactly as the sign rule of [MLStrategy.next] does
    on the same prediction. *)
Theorem zero_threshold_is_sign_rule :
  forall (cfg : Config) (t : Q) (z : fl) (st : Strategy),
    trade_threshold cfg = Fin t ->
    (t == 0)%Q ->
    position (decide cfg z st) = ml_decide z (position st).
Proof.
  intros cfg t z st Ht H0. unfold decide, ml_decide.
  rewrite Ht. destruct (zero_threshold t z H0) as [-> ->].
  rewrite sign_above_zero, sign_below_zero.
  destruct (fgt z (Fin 0) && negb (is_long (position st))); [reflexivity|].
  destruct (flt z (Fin 0) && negb (is_short (position st))); reflexivity.
Qed.

(** X18: a Keras model that has seen fewer bars than its window predicts
    0, and the bar leaves the position as it is. *)
Theorem keras_waits_for_a_full_window :
  forall (c : MLConfig) (predict_window : list (list fl) -> fl)
         (df : DataFrame) (p : PositionState),
    ml_model c = KerasModel predict_window ->
    (length df < ml_window c)%nat ->
    ml_predict c df = Ok (Fin 0) /\ ml_next c df p = Ok p.
Proof.
  intros c f df p Hm Hl.
  assert (Hp : ml_predict c df = Ok (Fin 0)).
  { unfold ml_predict. rewrite Hm.
    destruct (Nat.ltb_spec (length df) (ml_window c)); [reflexivity|lia]. }
  split; [exact Hp|]. unfold ml_next. rewrite Hp. reflexivity.
Qed.

(** ** The regime signal *)

Lemma firstn_succ_snoc {A : Type} (d : A) (l : list A) (k : nat) :
  (k < length l)%nat -> firstn (S k) l = firstn k l ++ [nth k l d].
Proof.
  revert k. induction l as [|x l IH]; intros k Hk; simpl in Hk; [lia|].
  destruct k as [|k]; [reflexivity|].
  change (firstn (S (S k)) (x :: l)) with (x :: firstn (S k) l).
  rewrite IH by lia. reflexivity.
Qed.

Lemma iloc_m1_firstn (s : list fl) (k : nat) :
  (k < length s)%nat -> iloc_m1 (firstn (S k) s) = Ok (nth k s NaN).
Proof.
  intros Hk. rewrite (firstn_succ_snoc NaN) by assumption.
  apply iloc_m1_snoc.
Qed.

Lemma ml_decide_one (p : PositionState) : ml_decide (Fin 1) p = Long.
Proof. destruct p; reflexivity. Qed.

Lemma ml_decide_minus_one (p : PositionState) : ml_decide (Fin (- (1))) p = Short.
Proof. destruct p; reflexivity. Qed.

(** X19: for states 0 and 1, the regime signal is 1 on the bars in the
    state of the first bar and -1 on the others, so the first signal is 1;
    with no model, [MLStrategy.next] on a bar in the first bar's state ends
    in Long and on any other bar in Short. *)
Theorem regime_of_first_bar_is_long :
  forall (states : list Z) (s0 : Z),
    hd_error states = Some s0 ->
    Forall (fun s => s = 0 \/ s = 1) states ->
    exists sig : list fl,
      hmm_signal states = Ok sig /\
      length sig = length states /\
      hd_error sig = Some (Fin 1) /\
      (forall k : nat,
          (k < length states)%nat ->
          nth k sig NaN = (if nth k states 0 =? s0 then Fin 1 else Fin (- (1)))) /\
      (forall (c : MLConfig) (df : DataFrame) (k : nat) (p : PositionState),
          ml_model c = NoModel ->
          (k < length states)%nat ->
          column df "hmm_signal" = firstn (S k) sig ->
          ml_next c df p
          = Ok (if nth k states 0 =? s0 then Long else Short)).
Proof.
  intros states s0 Hhd Hst.
  destruct states as [|s states']; [discriminate|].
  simpl in Hhd. injection Hhd as ->.
  set (states := s0 :: states') in *.
  set (f := fun s => if s =? s0 then Fin 1
                     else if s =? 1 - s0 then Fin (- (1)) else NaN).
  assert (Hnth : forall k, (k < length states)%nat ->
             nth k (map f states) NaN
             = (if nth k states 0 =? s0 then Fin 1 else Fin (- (1)))).
  { intros k Hk.
    rewrite (nth_indep _ NaN (f 0)) by now rewrite length_map.
    rewrite (map_nth f). unfold f.
    assert (Hs : nth k states 0 = 0 \/ nth k states 0 = 1).
    { rewrite Forall_forall in Hst. apply Hst. now apply nth_In. }
    assert (H0 : s0 = 0 \/ s0 = 1) by now inversion Hst.
    destruct (Z.eqb_spec (nth k states 0) s0); [reflexivity|].
    destruct (Z.eqb_spec (nth k states 0) (1 - s0)); [reflexivity|lia]. }
  exists (map f states). split; [reflexivity|].
  split; [apply length_map|]. split.
  - simpl. unfold f. now rewrite Z.eqb_refl.
  - split; [exact Hnth|].
    intros c df k p Hm Hk Hcol. unfold ml_next, ml_predict.
    rewrite Hm, Hcol.
    assert (Hlast : iloc_m1 (firstn (S k) (map f states))
                    = Ok (nth k (map f states) NaN)).
    { apply iloc_m1_firstn. now rewrite length_map. }
    rewrite Hlast, (Hnth k Hk). cbn [bind].
    destruct (nth k states 0 =? s0).
    + now rewrite ml_decide_one.
    + now rewrite ml_decide_minus_one.
Qed.

(** ** Windows for the sequence models *)

Lemma window_at_full {A : Type} (w : nat) (X : list A) (i : nat) :
  (i + w <= length X)%nat -> length (window_at w X i) = w.
Proof.
  intros H. unfold window_at. rewrite length_firstn, length_skipn. lia.
Qed.

Lemma nth_window_at {A : Type} (d : A) (w : nat) (X : list A) (i j : nat) :
  (j < w)%nat -> nth j (window_at w X i) d = nth (i + j) X d.
Proof.
  intros H. unfold window_at.
  rewrite nth_firstn.
  destruct (Nat.ltb_spec j w); [|lia].
  revert i. induction X as [|x X IH]; intros [|i]; simpl; auto.
  now destruct j.
Qed.

(** X20: [prepare_dl_data] returns [len(X) - w] windows (none when [X] is
    shorter than [w]), each of exactly [w] consecutive rows, window [i]
    starting at row [i]; the label paired with window [i] is [y[i + w]],
    the label of the row that follows the window; for [X] and [y] of equal
    length there are as many labels as windows. *)
Theorem windows_are_full_and_aligned :
  forall (A B : Type) (w : nat) (X : list A) (y : list B),
    let X_dl := fst (prepare_dl_data w X y) in
    let y_dl := snd (prepare_dl_data w X y) in
    length X_dl = (length X - w)%nat /\
    length y_dl = (length y - w)%nat /\
    (forall (i : nat) (d : list A),
        (i < length X - w)%nat ->
        length (nth i X_dl d) = w /\
        forall (j : nat) (a : A), (j < w)%nat ->
                                  nth j (nth i X_dl d) a = nth (i + j) X a) /\
    (forall (i : nat) (b : B), nth i y_dl b = nth (i + w) y b).
Proof.
  intros A B w X y. simpl. split; [|split; [|split]].
  - now rewrite length_map, length_seq.
  - apply length_skipn.
  - intros i d Hi.
    rewrite (nth_indep _ d (window_at w X 0))
      by now rewrite length_map, length_seq.
    rewrite (map_nth (window_at w X)), seq_nth by assumption. simpl.
    split.
    + apply window_at_full. lia.
    + intros j a Hj. now apply nth_window_at.
  - intros i b. rewrite nth_skipn. f_equal. lia.
Qed.

(** ** Exceptions of the first bar *)

Lemma getcol_present (f : Frame) (col : string) :
  In col (frame_columns f) -> getcol f col = Ok (column (frame_rows f) col).
Proof.
  intros H. unfold getcol.
  now rewrite (proj2 (has_column_In _ _) H).
Qed.

Lemma getcol_missing (f : Frame) (col : string) :
  ~ In col (frame_columns f) -> getcol f col = Raise (KeyError col).
Proof.
  intros H. unfold getcol.
  destruct (has_column (frame_columns f) col) eqn:Hc; [|reflexivity].
  apply has_column_In in Hc. contradiction.
Qed.

Lemma mapM_ext_in {A B : Type} (f g : A -> result B) (l : list A) :
  (forall a, In a l -> f a = g a) -> mapM f l = mapM g l.
Proof.
  induction l as [|a l IH]; intros H; simpl; [reflexivity|].
  rewrite (H a) by now left.
  rewrite IH; [reflexivity|]. intros b Hb. apply H. now right.
Qed.

Lemma mapM_raises_at {A B : Type} (f : A -> result B) (pre post : list A)
      (c : A) (e : Exn) :
  (forall a, In a pre -> exists b, f a = Ok b) ->
  f c = Raise e ->
  mapM f (pre ++ c :: post) = Raise e.
Proof.
  induction pre as [|a pre IH]; intros Hpre Hc; simpl.
  - now rewrite Hc.
  - destruct (Hpre a) as [b ->]; [now left|]. cbn [bind].
    rewrite IH; [reflexivity | | assumption].
    intros x Hx. apply Hpre. now right.
Qed.

Lemma first_missing_none (columns cols : list string) :
  first_missing columns cols = None ->
  forall c, In c cols -> In c columns.
Proof.
  unfold first_missing. intros H c Hc.
  pose proof (find_none _ _ H c Hc) as Hn. simpl in Hn.
  apply has_column_In. now destruct (has_column columns c).
Qed.

Lemma first_missing_some (columns cols : list string) (c : string) :
  first_missing columns cols = Some c ->
  exists pre post,
    cols = pre ++ c :: post /\
    (forall a, In a pre -> In a columns) /\ ~ In c columns.
Proof.
  unfold first_missing. induction cols as [|a cols IH]; simpl; intros H.
  - discriminate H.
  - destruct (has_column columns a) eqn:Ha; simpl in H.
    + destruct (IH H) as (pre & post & -> & Hpre & Hc).
      exists (a :: pre), post. split; [reflexivity|]. split; [|assumption].
      intros x [<-|Hx]; [now apply has_column_In | now apply Hpre].
    + injection H as <-. exists [], cols. split; [reflexivity|].
      split; [intros x []|].
      intros Hin. apply has_column_In in Hin. congruence.
Qed.

Lemma mapM_total {A B : Type} (f : A -> result B) (l : list A) :
  (forall a, In a l -> exists b, f a = Ok b) -> exists bs, mapM f l = Ok bs.
Proof.
  induction l as [|a l IH]; intros H; simpl.
  - eauto.
  - destruct (H a) as [b ->]; [now left|].
    destruct IH as [bs ->]; [intros; apply H; now right|].
    simpl. eauto.
Qed.

Lemma iloc_m2_two (s : list fl) :
  (2 <= length s)%nat -> exists x, iloc_m2 s = Ok x.
Proof.
  intros H.
  destruct (exists_last (l := s)) as [s1 [x ->]]; [intros ->; simpl in H; lia|].
  destruct (exists_last (l := s1)) as [s2 [y ->]].
  { intros ->; simpl in H; lia. }
  exists y. rewrite <- app_assoc. apply iloc_m2_snoc.
Qed.

Section OnFramesFacts.

Variable E : Estimators.
Variable cfg : Config.

(** On a frame that carries the feature columns and the close, [next_on]
    is [next] on the rows. *)
Lemma pred_on_present (f : Frame) (st : Strategy) :
  (forall c, In c (feat_cols cfg) -> In c (frame_columns f)) ->
  _pred_on cfg f st = _pred cfg (frame_rows f) st.
Proof.
  intros H. unfold _pred_on, _pred.
  rewrite (mapM_ext_in _ (fun col => iloc_m1 (column (frame_rows f) col)));
    [reflexivity|].
  intros c Hc. now rewrite getcol_present by auto.
Qed.

Lemma buffer_step_on_present (f : Frame) (st : Strategy) :
  (forall c, In c (feat_cols cfg) -> In c (frame_columns f)) ->
  In "Close"%string (frame_columns f) ->
  buffer_step_on cfg f st = buffer_step cfg (frame_rows f) st.
Proof.
  intros H Hc. unfold buffer_step_on, buffer_step.
  destruct (1 <? length (frame_rows f))%nat; [|reflexivity].
  rewrite (mapM_ext_in _ (fun col => iloc_m2 (column (frame_rows f) col))).
  - now rewrite (getcol_present f "Close" Hc).
  - intros c Hin. now rewrite getcol_present by auto.
Qed.

Lemma reweight_step_on_present (f : Frame) (st : Strategy) :
  In "Close"%string (frame_columns f) ->
  reweight_step_on cfg f st = reweight_step cfg (frame_rows f) st.
Proof.
  intros Hc.
  unfold reweight_step_on, reweight_step, _update_weights_on, _update_weights,
    reweighted_on, reweighted, recent_rets.
  now rewrite (getcol_present f "Close" Hc).
Qed.

Lemma next_on_present (f : Frame) (st : Strategy) :
  (forall c, In c (feat_cols cfg) -> In c (frame_columns f)) ->
  In "Close"%string (frame_columns f) ->
  next_on E cfg f st = next E cfg (frame_rows f) st.
Proof.
  intros H Hc. unfold next_on, next.
  rewrite buffer_step_on_present by assumption.
  destruct (buffer_step cfg (frame_rows f) st) as [st1|]; [|reflexivity].
  cbn [bind]. unfold trade_step_on, trade_step.
  rewrite pred_on_present by assumption.
  destruct (_pred cfg (frame_rows f) st1) as [z|]; [|reflexivity].
  cbn [bind].
  destruct (retrain_step E cfg (decide cfg z st1)) as [st3|]; [|reflexivity].
  cbn [bind]. now apply reweight_step_on_present.
Qed.

(** The first feature column that is missing raises, before anything
    else is done. *)
Lemma next_on_missing_feature (f : Frame) (st : Strategy) (c : string) :
  frame_rows f <> [] ->
  first_missing (frame_columns f) (feat_cols cfg) = Some c ->
  next_on E cfg f st = Raise (KeyError c).
Proof.
  intros Hne Hc.
  destruct (first_missing_some _ _ _ Hc) as (pre & post & Hcols & Hpre & Hmiss).
  unfold next_on, buffer_step_on.
  destruct (Nat.ltb_spec 1 (length (frame_rows f))) as [Hlen|Hlen].
  - rewrite Hcols.
    rewrite (mapM_raises_at _ pre post c (KeyError c)); [reflexivity| |].
    + intros a Ha. rewrite getcol_present by auto. cbn [bind].
      apply iloc_m2_two. unfold column. rewrite length_map. exact Hlen.
    + now rewrite getcol_missing.
  - cbn [bind]. unfold trade_step_on, _pred_on. rewrite Hcols.
    rewrite (mapM_raises_at _ pre post c (KeyError c)); [reflexivity| |].
    + intros a Ha. rewrite getcol_present by auto. cbn [bind].
      apply iloc_m1_nonempty. unfold column.
      destruct (frame_rows f); [contradiction|discriminate].
    + now rewrite getcol_missing.
Qed.

(** With the feature columns there and the close missing, the label of a
    bar that has a predecessor raises. *)
Lemma next_on_missing_close (f : Frame) (st : Strategy) :
  (1 < length (frame_rows f))%nat ->
  first_missing (frame_columns f) (feat_cols cfg) = None ->
  ~ In "Close"%string (frame_columns f) ->
  next_on E cfg f st = Raise (KeyError "Close").
Proof.
  intros Hlen Hf Hc. unfold next_on, buffer_step_on.
  destruct (Nat.ltb_spec 1 (length (frame_rows f))) as [_|H];
    [|exfalso; clear - Hlen H; lia].
  destruct (mapM_total (fun col => s <- getcol f col ;; iloc_m2 s) (feat_cols cfg))
    as [fv ->].
  - intros a Ha.
    rewrite getcol_present by (eapply first_missing_none; eassumption).
    cbn [bind]. apply iloc_m2_two. unfold column. rewrite length_map.
    exact Hlen.
  - cbn [bind]. now rewrite getcol_missing.
Qed.

(** A zero retrain interval raises at the modulo, after the trading
    decision. *)
Lemma next_zero_interval (df : DataFrame) (st : Strategy) :
  df <> [] ->
  incl (keys (models st)) (keys (weights st)) ->
  retrain_every cfg = 0 ->
  next E cfg df st = Raise ZeroDivisionError.
Proof.
  intros Hdf Hk H0. unfold next.
  destruct (buffer_step_total cfg df st) as [st1 H1]. rewrite H1. cbn [bind].
  apply buffer_step_frame in H1. destruct H1 as (Hm1 & Hw1 & _).
  unfold trade_step.
  destruct (pred_total cfg df st1 Hdf) as [z ->]; [now rewrite Hm1, Hw1|].
  cbn [bind]. unfold retrain_step. rewrite H0. reflexivity.
Qed.

End OnFramesFacts.

(** X4: the first bar of a run raises [KeyError] for the first feature
    column, in the order of [feat_cols], that the frame does not carry,
    before it buffers, predicts or trades; with the feature columns there
    and no [Close], a bar that has a predecessor raises [KeyError] for
    [Close]; and with all of them there and a retrain interval of 0 the
    first bar of a run from [init] raises [ZeroDivisionError]. *)
Theorem missing_column_or_zero_interval_raises :
  forall (E : Estimators) (cfg : Config) (columns : list string)
         (data : DataFrame) (i n : nat),
    (i < length data)%nat ->
    (0 < n)%nat ->
    (forall (c : string) (st : Strategy),
        first_missing columns (feat_cols cfg) = Some c ->
        run_bars_on E cfg columns data i n st = Raise (KeyError c)) /\
    (forall st : Strategy,
        first_missing columns (feat_cols cfg) = None ->
        ~ In "Close"%string columns ->
        (1 <= i)%nat ->
        run_bars_on E cfg columns data i n st = Raise (KeyError "Close")) /\
    (first_missing columns (feat_cols cfg) = None ->
     In "Close"%string columns ->
     retrain_every cfg = 0 ->
     run_bars_on E cfg columns data i n (init cfg) = Raise ZeroDivisionError).
Proof.
  intros E cfg columns data i n Hi Hn.
  destruct n as [|n]; [lia|]. cbn [run_bars_on].
  set (f := {| frame_columns := columns; frame_rows := firstn (S i) data |}).
  assert (Hlen : length (frame_rows f) = S i).
  { unfold f. cbn [frame_rows]. rewrite length_firstn. lia. }
  assert (Hne : frame_rows f <> []).
  { intros H0. rewrite H0 in Hlen. discriminate Hlen. }
  split; [|split].
  - intros c st Hc.
    now rewrite (next_on_missing_feature E cfg f st c Hne Hc).
  - intros st Hf Hc H1.
    rewrite (next_on_missing_close E cfg f st); [reflexivity | lia | assumption..].
  - intros Hf Hc H0.
    rewrite next_on_present;
      [| exact (first_missing_none _ _ Hf) | assumption].
    rewrite (next_zero_interval E cfg (frame_rows f) (init cfg) Hne);
      [reflexivity | | assumption].
    unfold keys. simpl. rewrite map_map. simpl. apply incl_refl.
Qed.

(** ** Instances of the further theorems *)

(** The cold start is shorter than either warm-up. *)
Lemma weights_fixed_during_warmup_witness :
  run_bars Scenario.estimators Scenario.cold_cfg Scenario.cold_data 1 5
           (init Scenario.cold_cfg) = Ok Scenario.cold_end /\
  weights Scenario.cold_end = weights (init Scenario.cold_cfg).
Proof.
  assert (H : run_bars Scenario.estimators Scenario.cold_cfg Scenario.cold_data 1 5
                       (init Scenario.cold_cfg) = Ok Scenario.cold_end)
    by (vm_compute; reflexivity).
  assert (Hn : (5 < 60)%nat \/ (window_len Scenario.cold_cfg < 60)%nat)
    by (left; lia).
  split; [exact H|].
  exact (weights_fixed_during_warmup _ _ _ _ _ _ H Hn).
Defined.

Lemma models_fixed_during_warmup_witness :
  run_bars Scenario.estimators Scenario.cold_cfg Scenario.cold_data 1 5
           (init Scenario.cold_cfg) = Ok Scenario.cold_end /\
  models Scenario.cold_end = base_models Scenario.cold_cfg.
Proof.
  assert (H : run_bars Scenario.estimators Scenario.cold_cfg Scenario.cold_data 1 5
                       (init Scenario.cold_cfg) = Ok Scenario.cold_end)
    by (vm_compute; reflexivity).
  assert (Hn : (5 <= 500)%nat \/ (window_len Scenario.cold_cfg <= 500)%nat)
    by (left; lia).
  split; [exact H|].
  exact (models_fixed_during_warmup _ _ _ _ _ _ H Hn).
Defined.

(** Four trades in the cold start, under an interval of 60. *)
Lemma trade_counter_stays_below_interval_witness :
  run_bars Scenario.estimators Scenario.cold_cfg Scenario.cold_data 1 5
           (init Scenario.cold_cfg) = Ok Scenario.cold_end /\
  0 <= trade_c Scenario.cold_end < reweight_every_trades Scenario.cold_cfg.
Proof.
  assert (H : run_bars Scenario.estimators Scenario.cold_cfg Scenario.cold_data 1 5
                       (init Scenario.cold_cfg) = Ok Scenario.cold_end)
    by (vm_compute; reflexivity).
  assert (Hr : 1 <= reweight_every_trades Scenario.cold_cfg)
    by (vm_compute; discriminate).
  split; [exact H|].
  exact (proj1 (trade_counter_stays_below_interval _ _ _ _ _ _ H) Hr).
Defined.

(** The cold start under a retrain interval of 0, on a frame without the
    feature, on one without the close and on one with both. *)
Lemma missing_column_or_zero_interval_raises_witness :
  (1 < length Scenario.cold_data)%nat /\ (0 < 5)%nat /\
  run_bars_on Scenario.estimators Cases.halted_cfg Cases.close_only
              Scenario.cold_data 1 5 (init Cases.halted_cfg)
  = Raise (KeyError "f") /\
  run_bars_on Scenario.estimators Cases.halted_cfg Cases.feature_only
              Scenario.cold_data 1 5 (init Cases.halted_cfg)
  = Raise (KeyError "Close") /\
  run_bars_on Scenario.estimators Cases.halted_cfg Cases.close_and_feature
              Scenario.cold_data 1 5 (init Cases.halted_cfg)
  = Raise ZeroDivisionError.
Proof.
  assert (Hi : (1 < length Scenario.cold_data)%nat) by (simpl; lia).
  assert (Hn : (0 < 5)%nat) by lia.
  assert (Hc : ~ In "Close"%string Cases.feature_only).
  { simpl. intros [H|[]]. discriminate H. }
  assert (Hb : In "Close"%string Cases.close_and_feature) by (left; reflexivity).
  split; [exact Hi|]. split; [exact Hn|]. split; [|split].
  - exact (proj1 (missing_column_or_zero_interval_raises Scenario.estimators
                    Cases.halted_cfg Cases.close_only Scenario.cold_data 1 5
                    Hi Hn)
                 "f"%string (init Cases.halted_cfg) eq_refl).
  - exact (proj1 (proj2 (missing_column_or_zero_interval_raises
                           Scenario.estimators Cases.halted_cfg
                           Cases.feature_only Scenario.cold_data 1 5 Hi Hn))
                 (init Cases.halted_cfg) eq_refl Hc (le_n 1)).
  - exact (proj2 (proj2 (missing_column_or_zero_interval_raises
                           Scenario.estimators Cases.halted_cfg
                           Cases.close_and_feature Scenario.cold_data 1 5 Hi Hn))
                 eq_refl Hb eq_refl).
Defined.

Lemma registry_keeps_fitted_names_witness :
  keys (base_models Scenario.long_cfg) = fitted_names /\
  run_bars Scenario.estimators Scenario.long_cfg Scenario.long_data 1 60
           (init Scenario.long_cfg) = Ok Scenario.long_60 /\
  keys (models Scenario.long_60) = fitted_names /\
  keys (weights Scenario.long_60) = fitted_names.
Proof.
  assert (Hk : keys (base_models Scenario.long_cfg) = fitted_names) by reflexivity.
  assert (H : run_bars Scenario.estimators Scenario.long_cfg Scenario.long_data
                       1 60 (init Scenario.long_cfg) = Ok Scenario.long_60)
    by (vm_compute; reflexivity).
  split; [exact Hk|]. split; [exact H|].
  exact (registry_keeps_fitted_names _ _ _ _ _ _ Hk H).
Defined.


Lemma buffered_samples_are_well_formed_witness :
  run_bars Scenario.estimators Scenario.cold_cfg Scenario.cold_data 1 5
           (init Scenario.cold_cfg) = Ok Scenario.cold_end /\
  Forall (fun x => length x = length (feat_cols Scenario.cold_cfg))
         (X_buf Scenario.cold_end) /\
  Forall (fun y => isnan y = false) (y_buf Scenario.cold_end).
Proof.
  assert (H : run_bars Scenario.estimators Scenario.cold_cfg Scenario.cold_data 1 5
                       (init Scenario.cold_cfg) = Ok Scenario.cold_end)
    by (vm_compute; reflexivity).
  split; [exact H|].
  exact (buffered_samples_are_well_formed _ _ _ _ _ _ H).
Defined.

(** A prediction of 0.1 at threshold 0. *)
Lemma decision_follows_signal_witness :
  flt (trade_threshold Scenario.cold_cfg) (Fin 0) = false /\
  position (decide Scenario.cold_cfg (Fin (1 # 10)) (init Scenario.cold_cfg)) = Long.
Proof.
  assert (Ht : flt (trade_threshold Scenario.cold_cfg) (Fin 0) = false)
    by reflexivity.
  split; [exact Ht|].
  exact (proj1 (decision_follows_signal Scenario.cold_cfg (Fin (1 # 10))
                  (init Scenario.cold_cfg) Ht) eq_refl).
Defined.

(** A prediction of 0 at threshold -1. *)
Lemma negative_threshold_trades_every_bar_witness :
  (- (1) < 0)%Q /\ (0 < - - (1))%Q /\
  position (decide (Scenario.empty_cfg (Fin (- (1)))) (Fin 0)
                   (init (Scenario.empty_cfg (Fin (- (1)))))) = Long.
Proof.
  assert (H1 : (- (1) < 0)%Q) by reflexivity.
  assert (H2 : (0 < - - (1))%Q) by reflexivity.
  split; [exact H1|]. split; [exact H2|].
  exact (proj1 (negative_threshold_trades_every_bar
                  (Scenario.empty_cfg (Fin (- (1)))) (- (1)) 0
                  (init (Scenario.empty_cfg (Fin (- (1))))) eq_refl H1 H2)).
Defined.

(** A reweight that is due on empty deques. *)
Lemma idle_reweight_resets_counter_witness :
  reweight_due Scenario.due_cfg Cases.idle_state = true /\
  reweight_step Scenario.due_cfg Scenario.gap_pair Cases.idle_state
  = Ok (set_trade_c Cases.idle_state 0).
Proof.
  assert (Hd : reweight_due Scenario.due_cfg Cases.idle_state = true)
    by reflexivity.
  assert (Hs : (length (X_buf Cases.idle_state) < 60)%nat \/
               forallb isnan (recent_rets Scenario.gap_pair) = true)
    by (left; simpl; lia).
  split; [exact Hd|].
  exact (idle_reweight_resets_counter _ _ _ Hd Hs).
Defined.

(** After the gap run every weight is [NaN]; three bars later nothing has
    moved. *)
Lemma nan_weights_freeze_the_strategy_witness :
  fitted_registry Cases.gap_end /\
  all_nan (weights Cases.gap_end) = true /\
  trade_c Cases.gap_end < reweight_every_trades Scenario.long_cfg /\
  run_bars Scenario.estimators Scenario.long_cfg Scenario.cold_data 1 3
           Cases.gap_end = Ok Cases.gap_later /\
  position Cases.gap_later = position Cases.gap_end /\
  trade_c Cases.gap_later = trade_c Cases.gap_end /\
  weights Cases.gap_later = weights Cases.gap_end.
Proof.
  assert (Hf : fitted_registry Cases.gap_end)
    by (split; vm_compute; reflexivity).
  assert (Hn : all_nan (weights Cases.gap_end) = true)
    by (vm_compute; reflexivity).
  assert (Hc : trade_c Cases.gap_end < reweight_every_trades Scenario.long_cfg)
    by (vm_compute; reflexivity).
  assert (H : run_bars Scenario.estimators Scenario.long_cfg Scenario.cold_data
                       1 3 Cases.gap_end = Ok Cases.gap_later)
    by (vm_compute; reflexivity).
  split; [exact Hf|]. split; [exact Hn|]. split; [exact Hc|]. split; [exact H|].
  exact (nan_weights_freeze_the_strategy _ _ _ _ _ _ _ Hf Hn Hc H).
Defined.

(** The first bar of the cold start: two models, both predicting 0.1. *)
Lemma prediction_is_convex_combination_witness :
  NoDup (keys (models (init Scenario.cold_cfg))) /\
  (Qsum [1 # 2; 1 # 2] == 1)%Q /\
  exists z : Q,
    _pred Scenario.cold_cfg (firstn 2 Scenario.cold_data) (init Scenario.cold_cfg)
    = Ok (Fin z) /\
    (z == dot [1 # 10; 1 # 10] [1 # 2; 1 # 2])%Q /\
    (1 # 10 <= z <= 1 # 10)%Q.
Proof.
  assert (Hf : mapM (fun col => iloc_m1 (column (firstn 2 Scenario.cold_data) col))
                    (feat_cols Scenario.cold_cfg) = Ok [Fin (1 # 10)])
    by reflexivity.
  assert (Hnd : NoDup (keys (models (init Scenario.cold_cfg)))).
  { simpl. repeat constructor; simpl; intuition discriminate. }
  assert (Hw : weights (init Scenario.cold_cfg)
               = combine (keys (models (init Scenario.cold_cfg)))
                         (map Fin [1 # 2; 1 # 2])) by reflexivity.
  assert (Hl : length [1 # 2; 1 # 2] = length (models (init Scenario.cold_cfg)))
    by reflexivity.
  assert (Hw0 : Forall (fun w => 0 <= w)%Q [1 # 2; 1 # 2])
    by (repeat constructor; discriminate).
  assert (Hs : (Qsum [1 # 2; 1 # 2] == 1)%Q) by reflexivity.
  assert (Hp : map (fun km => predict (snd km) [Fin (1 # 10)])
                   (models (init Scenario.cold_cfg))
               = map Fin [1 # 10; 1 # 10]) by reflexivity.
  assert (Hb : Forall (fun p => 1 # 10 <= p <= 1 # 10)%Q [1 # 10; 1 # 10])
    by (repeat constructor; discriminate).
  split; [exact Hnd|]. split; [exact Hs|].
  exact (prediction_is_convex_combination _ _ _ _ _ _ _ _ Hf Hnd Hw Hl Hw0 Hs Hp Hb).
Defined.

(** Bar 1 of the cold start. *)
Lemma buffered_label_is_training_target_witness :
  (1 <= 1)%nat /\ (1 < length Scenario.cold_data)%nat /\
  buffer_step Scenario.cold_cfg (firstn 2 Scenario.cold_data)
              (init Scenario.cold_cfg) = Ok Cases.cold_buffered /\
  y_buf Cases.cold_buffered
  = push_all (window_len Scenario.cold_cfg) (y_buf (init Scenario.cold_cfg))
      (map snd
         (if isnan (nth (1 - 1) (r_next (column Scenario.cold_data "Close")) NaN)
          then []
          else [(map (nth (1 - 1) Scenario.cold_data no_row)
                     (feat_cols Scenario.cold_cfg),
                 nth (1 - 1) (r_next (column Scenario.cold_data "Close")) NaN)])).
Proof.
  assert (H1 : (1 <= 1)%nat) by lia.
  assert (H2 : (1 < length Scenario.cold_data)%nat) by (simpl; lia).
  assert (H : buffer_step Scenario.cold_cfg (firstn 2 Scenario.cold_data)
                          (init Scenario.cold_cfg) = Ok Cases.cold_buffered)
    by (vm_compute; reflexivity).
  split; [exact H1|]. split; [exact H2|]. split; [exact H|].
  exact (proj2 (buffered_label_is_training_target Scenario.cold_cfg
                  Scenario.cold_data 1 _ _ H1 H2 H)).
Defined.

Lemma zero_threshold_is_sign_rule_witness :
  trade_threshold Scenario.cold_cfg = Fin 0 /\
  position (decide Scenario.cold_cfg (Fin (- 2 # 10)) (init Scenario.cold_cfg))
  = ml_decide (Fin (- 2 # 10)) (position (init Scenario.cold_cfg)).
Proof.
  assert (Ht : trade_threshold Scenario.cold_cfg = Fin 0) by reflexivity.
  assert (H0 : (0 == 0)%Q) by reflexivity.
  split; [exact Ht|].
  exact (zero_threshold_is_sign_rule _ _ (Fin (- 2 # 10))
           (init Scenario.cold_cfg) Ht H0).
Defined.

(** Two bars under a window of 20. *)
Lemma keras_waits_for_a_full_window_witness :
  (length Scenario.gap_pair < ml_window Cases.keras_cfg)%nat /\
  ml_next Cases.keras_cfg Scenario.gap_pair Long = Ok Long.
Proof.
  assert (Hl : (length Scenario.gap_pair < ml_window Cases.keras_cfg)%nat)
    by (vm_compute; lia).
  split; [exact Hl|].
  exact (proj2 (keras_waits_for_a_full_window Cases.keras_cfg (fun _ => Fin 1)
                  Scenario.gap_pair Long eq_refl Hl)).
Defined.

(** States 1, 0, 1: the signal is 1, -1, 1. *)
Lemma regime_of_first_bar_is_long_witness :
  Forall (fun s => s = 0 \/ s = 1) [1; 0; 1] /\
  exists sig : list fl,
    hmm_signal [1; 0; 1] = Ok sig /\ hd_error sig = Some (Fin 1).
Proof.
  assert (Hs : Forall (fun s => s = 0 \/ s = 1) [1; 0; 1])
    by (repeat constructor; auto).
  split; [exact Hs|].
  destruct (regime_of_first_bar_is_long [1; 0; 1] 1 eq_refl Hs)
    as (sig & H1 & _ & H2 & _).
  exists sig. split; [exact H1 | exact H2].
Defined.
